(** * EchoMoer/list: the [List] helper type of [list.go]

    A shallow embedding of [src/list.go].  A [List] is a Go struct passed by
    value that holds a pointer to a slice variable ([*[]string]) and a cached
    [length].  Every mutating method works through that pointer and through
    Go's [append], which writes into the backing array in place whenever the
    capacity allows it.  The embedding therefore models the Go store
    explicitly: backing arrays, slice headers (array, offset, length,
    capacity), slice variables, and run-time panics. *)

From Stdlib Require Import ZArith Lia Ascii.
From stdpp Require Import base list strings gmap sorting pretty.

Local Open Scope string_scope.
Local Open Scope list_scope.

(** ** The Go store *)

Module Go.

Definition loc := nat.

(** A slice header: backing array, offset of element 0 in it, [len], [cap]. *)
Record slice := Slice {
  s_arr : loc;
  s_off : nat;
  s_len : nat;
  s_cap : nat
}.

(** The nil slice ([var val []string], [new([]string)]): no element is ever
    read or written through it, so its array field is irrelevant. *)
Definition nil_slice : slice := Slice 0 0 0 0.

(** [arrays]: the backing arrays (fixed size once allocated);
    [cells]: the slice variables that a [*[]string] points to. *)
Record heap := Heap {
  arrays : list (list string);
  cells : list slice
}.

Inductive fault :=
| NilDeref      (* nil pointer dereference *)
| OutOfRange    (* index or slice bounds out of range *)
| Dangling.     (* a pointer outside the store: never occurs in a [wf] store *)

Inductive result (A : Type) :=
| Ok (a : A) (h : heap)
| Panic (f : fault).
Arguments Ok {A} a h.
Arguments Panic {A} f.

Definition M (A : Type) : Type := heap -> result A.

Definition ret {A} (a : A) : M A := fun h => Ok a h.
Definition bind {A B} (m : M A) (k : A -> M B) : M B :=
  fun h => match m h with
           | Ok a h' => k a h'
           | Panic f => Panic f
           end.
Definition panic {A} (f : fault) : M A := fun _ => Panic f.

Notation "'let*' x ':=' c1 'in' c2" := (bind c1 (fun x => c2))
  (at level 10, x name, c1 at level 100, c2 at level 200).
Notation "'run' c1 'in' c2" := (bind c1 (fun _ => c2))
  (at level 10, c1 at level 100, c2 at level 200).

(** Go's [int] is a signed 64-bit integer; [+] wraps around. *)
Definition max_int : Z := (2 ^ 63 - 1)%Z.
Definition min_int : Z := (- 2 ^ 63)%Z.
Definition wrap (z : Z) : Z := ((z + 2 ^ 63) mod 2 ^ 64 - 2 ^ 63)%Z.
Definition int_add (a b : Z) : Z := wrap (a + b)%Z.

(** The backing array at [a] (empty when [a] is not allocated). *)
Definition array_at (h : heap) (a : loc) : list string :=
  default [] (arrays h !! a).

(** The elements visible through a slice header. *)
Definition view (h : heap) (s : slice) : list string :=
  take (s_len s) (drop (s_off s) (array_at h (s_arr s))).

(** [*p] for [p : *[]string]. *)
Definition load (p : option loc) : M slice :=
  fun h => match p with
           | None => Panic NilDeref
           | Some l => match cells h !! l with
                       | Some s => Ok s h
                       | None => Panic Dangling
                       end
           end.

(** [*p = s]. *)
Definition store (p : option loc) (s : slice) : M unit :=
  fun h => match p with
           | None => Panic NilDeref
           | Some l => match cells h !! l with
                       | Some _ => Ok tt (Heap (arrays h) (<[l := s]> (cells h)))
                       | None => Panic Dangling
                       end
           end.

(** [&val] for a local slice variable that escapes: a fresh cell. *)
Definition new_cell (s : slice) : M loc :=
  fun h => Ok (length (cells h)) (Heap (arrays h) (cells h ++ [s])).

(** A fresh backing array with the given contents. *)
Definition new_array (xs : list string) : M loc :=
  fun h => Ok (length (arrays h)) (Heap (arrays h ++ [xs]) (cells h)).

(** [make([]string, 0, c)]. *)
Definition make0 (c : nat) : M slice :=
  let* a := new_array (replicate c "") in
  ret (Slice a 0 0 c).

(** [len(s)] as a Go [int]. *)
Definition len (s : slice) : Z := Z.of_nat (s_len s).

(** [s[i]]: panics unless [0 <= i < len(s)]; reads the array as it is now. *)
Definition index (s : slice) (i : Z) : M string :=
  fun h => if bool_decide (0 <= i < len s)%Z then
             match array_at h (s_arr s) !! (s_off s + Z.to_nat i) with
             | Some x => Ok x h
             | None => Panic Dangling
             end
           else Panic OutOfRange.

(** [s[lo:hi]]: panics unless [0 <= lo <= hi <= cap(s)]. *)
Definition reslice (s : slice) (lo hi : Z) : M slice :=
  if bool_decide (0 <= lo /\ lo <= hi /\ hi <= Z.of_nat (s_cap s))%Z then
    ret (Slice (s_arr s) (s_off s + Z.to_nat lo)
               (Z.to_nat hi - Z.to_nat lo) (s_cap s - Z.to_nat lo))
  else panic OutOfRange.

(** [s[:hi]] and [s[lo:]]. *)
Definition slice_to (s : slice) (hi : Z) : M slice := reslice s 0 hi.
Definition slice_from (s : slice) (lo : Z) : M slice := reslice s lo (len s).

(** The values of a slice used as the variadic argument [xs...]: [append]
    copies them with memmove semantics, i.e. as they are before the copy. *)
Definition elems (s : slice) : M (list string) :=
  fun h => Ok (view h s) h.

(** Overwrite [xs] into an array starting at position [pos]. *)
Definition write_at (arr : list string) (pos : nat) (xs : list string) : list string :=
  take pos arr ++ xs ++ drop (pos + length xs) arr.

Section Append.
(** Spare capacity that [runtime.growslice] adds when it reallocates, as a
    function of the old capacity and the number of elements needed. *)
Variable spare : nat -> nat -> nat.

(** [append(s, xs...)]: in place when [len(s) + len(xs) <= cap(s)], otherwise
    into a new, sufficiently large array. *)
Definition append (s : slice) (xs : list string) : M slice :=
  fun h =>
    let n := s_len s + length xs in
    if bool_decide (n <= s_cap s) then
      match xs with
      | [] => Ok s h
      | _ =>
        match arrays h !! s_arr s with
        | Some arr =>
            Ok (Slice (s_arr s) (s_off s) n (s_cap s))
               (Heap (<[s_arr s := write_at arr (s_off s + s_len s) xs]> (arrays h))
                     (cells h))
        | None => Panic Dangling
        end
      end
    else
      let c := n + spare (s_cap s) n in
      Ok (Slice (length (arrays h)) 0 n c)
         (Heap (arrays h ++ [view h s ++ xs ++ replicate (c - n) ""]) (cells h)).
End Append.

(** A slice header lies within its backing array. *)
Definition inb (h : heap) (s : slice) : Prop :=
  s_len s <= s_cap s /\ s_off s + s_cap s <= length (array_at h (s_arr s)).

(** Well-formed slice header: it lies within its array and its length fits
    in an [int]. *)
Definition wf_slice (h : heap) (s : slice) : bool :=
  bool_decide (s_len s <= s_cap s)
  && bool_decide (s_off s + s_cap s <= length (array_at h (s_arr s)))
  && bool_decide (Z.of_nat (s_len s) <= max_int)%Z.

End Go.

Import Go.

(** ** The [List] type and its methods *)

(** [type List struct { value *[]string; length int }]. *)
Record List := mkList {
  List_value : option loc;
  List_length : Z
}.

(** The slice variable behind a list, and the elements seen through it. *)
Definition backing (h : heap) (d : List) : option slice :=
  match List_value d with
  | Some p => cells h !! p
  | None => None
  end.

Definition contents (h : heap) (d : List) : list string :=
  match backing h d with
  | Some s => view h s
  | None => []
  end.

(** An initialised list: its pointer is not nil and leads to a well-formed
    slice header. *)
Definition wf (h : heap) (d : List) : bool :=
  match backing h d with
  | Some s => wf_slice h s
  | None => false
  end.

(** Modelled from the spec: [sort.Ints] of Go's standard library, missing
    from the sources; it sorts in ascending order. *)
Definition sort_Ints (l : list Z) : list Z := merge_sort Z.le l.

(** [d3[i]] on a local [[]int]. *)
Definition index_int (l : list Z) (i : Z) : M Z :=
  if bool_decide (0 <= i < Z.of_nat (length l))%Z then
    match l !! Z.to_nat i with
    | Some x => ret x
    | None => panic Dangling
    end
  else panic OutOfRange.

(** ** Concrete stores and coercions for the examples *)

(** A store with one list over a full array (capacity = length). *)
Definition heap_of (l : list string) : heap :=
  Heap [l] [Slice 0 0 (length l) (length l)].

(** A store with two lists, each over a full array of its own. *)
Definition heap_of2 (l1 l2 : list string) : heap :=
  Heap [l1; l2]
       [Slice 0 0 (length l1) (length l1); Slice 1 0 (length l2) (length l2)].

(** A store with three lists, each over a full array of its own. *)
Definition heap_of3 (l1 l2 l3 : list string) : heap :=
  Heap [l1; l2; l3]
       [Slice 0 0 (length l1) (length l1); Slice 1 0 (length l2) (length l2);
        Slice 2 0 (length l3) (length l3)].

(** A store with two lists, the first one over an array with room for
    [room] more elements (as after some [Pop]s). *)
Definition heap_with_room (l1 : list string) (room : nat) (l2 : list string) : heap :=
  Heap [l1 ++ replicate room ""; l2]
       [Slice 0 0 (length l1) (length l1 + room);
        Slice 1 0 (length l2) (length l2)].

Definition list_at (p : loc) (n : Z) : List := mkList (Some p) n.
Arguments list_at p%_nat n%_Z.

(** Growth policies for [append]: exact fit, and doubling. *)
Definition no_spare : nat -> nat -> nat := fun _ _ => 0.
Definition double_spare : nat -> nat -> nat := fun _ n => n.

(** A text-to-integer coercion for the examples: decimal digits with an
    optional minus sign, 0 for any other text. *)
Definition digit_of (c : Ascii.ascii) : option Z :=
  let n := nat_of_ascii c in
  if Nat.leb 48 n && Nat.leb n 57 then Some (Z.of_nat (n - 48)) else None.

Fixpoint parse_digits (s : string) (acc : Z) : option Z :=
  match s with
  | EmptyString => Some acc
  | String c s' =>
      match digit_of c with
      | Some k => parse_digits s' (10 * acc + k)%Z
      | None => None
      end
  end.

Definition int_text_ok (s : string) : bool :=
  match s with
  | EmptyString => false
  | String "-" s' =>
      match s' with
      | EmptyString => false
      | _ => bool_decide (is_Some (parse_digits s' 0))
      end
  | _ => bool_decide (is_Some (parse_digits s 0))
  end.

Definition parse_int (s : string) : Z :=
  match s with
  | EmptyString => 0%Z
  | String "-" EmptyString => 0%Z
  | String "-" s' => default 0%Z (Z.opp <$> parse_digits s' 0)
  | _ => default 0%Z (parse_digits s 0)
  end.

Section Methods.

#[local] Set Default Proof Using "Type".
#[local] Set Warnings "-clear-no-such-hyp".

(** [interface{}] arguments and the coercions of [github.com/spf13/cast],
    which is not part of this repository: they are parameters. *)
Variable value : Type.
Variable ToString : value -> string.
Variable ToStringSlice : value -> list string.
Variable ToInt : string -> Z.
Variable FormatInt64 : Z -> string.

(** Whether [cast.ToIntE] accepts a text as an integer.  [cast.ToInt] drops
    the error and is 0 on the other texts. *)
Variable int_text : string -> bool.

(** Modelled from the spec: [cast.ToIntSlice], which is not part of this
    repository, coerces every element to an integer, with an undefined
    result for non-numeric text.  As in the library, the conversion of the
    whole slice gives up at the first element that is not the text of an
    integer, and the caller, which drops the error, is left with the empty
    slice. *)
Definition ToIntSlice (l : list string) : list Z :=
  if forallb int_text l then map ToInt l else [].

(** Spare capacity chosen by the runtime when [append] reallocates. *)
Variable spare : nat -> nat -> nat.

(** Order in which [range] visits the keys of a map: chosen by the runtime,
    some permutation of the keys. *)
Variable range_order : list string -> list string.

(** Modelled from the spec: the slice that [cast.ToStringSlice], missing from
    the sources, builds from a value that is not itself a [[]string]: the
    ordered sequence of its textual representations, in an array of its
    own.  (A [[]string] argument is returned as it is and the new list then
    shares its storage; the statements below about [NewList] concern the
    elements and the cached length only.) *)
Definition fresh_slice (xs : list string) : M slice :=
  let c := length xs + spare 0 (length xs) in
  let* a := new_array (xs ++ replicate (c - length xs) "") in
  ret (Slice a 0 (length xs) c).

Definition NewList (va : value) : M List :=
  let* val := fresh_slice (ToStringSlice va) in
  let l := len val in
  let* p := new_cell val in
  ret (mkList (Some p) l).

Definition NilList (va : value) : M List :=
  let val := nil_slice in
  let* p := new_cell val in
  ret (mkList (Some p) 0).

(** Pointer receiver: works on the caller's local copy of the struct, which
    is returned here. *)
Definition ensureInitialized (d : List) : M List :=
  match List_value d with
  | None => let* p := new_cell nil_slice in
            ret (mkList (Some p) (List_length d))
  | Some _ => ret d
  end.

(** [&( *d.value )] is the pointer [d.value] itself. *)
Definition Copy (d : List) : M List :=
  let* d := ensureInitialized d in
  ret (mkList (List_value d) (List_length d)).

(** Modelled from the spec: [cast.ToStringSlice] of an [int64], missing from
    the sources, is the single-element coercion of the value. *)
Definition NewStrSlice (v : Z) : M (option loc) :=
  let* val := fresh_slice [FormatInt64 v] in
  let* p := new_cell val in
  ret (Some p).

Definition New (v : Z) (length : Z) : M List :=
  let* p := NewStrSlice v in
  ret (mkList p length).

Definition Add (d d2 : List) : M List :=
  let* rdv := load (List_value d) in
  let* rdv2 := load (List_value d2) in
  let l2 := int_add (List_length d) (List_length d2) in
  let* xs := elems rdv2 in
  let* d3Value := append spare rdv xs in
  let* p := new_cell d3Value in
  ret (mkList (Some p) l2).

(** [for _, v := range d2Value { if !d2Map[v] { d2Map[v] = true } }]. *)
Fixpoint Sub_mark (s : slice) (i n : nat) (d2Map : gmap string bool)
  : M (gmap string bool) :=
  match n with
  | O => ret d2Map
  | S n' =>
      let* v := index s (Z.of_nat i) in
      let d2Map := if negb (default false (d2Map !! v))
                   then <[v := true]> d2Map else d2Map in
      Sub_mark s (S i) n' d2Map
  end.

(** [for k, _ := range d2Map { d3Value = append(d3Value, k) }]. *)
Fixpoint Sub_collect (ks : list string) (d3Value : slice) : M slice :=
  match ks with
  | [] => ret d3Value
  | k :: ks' =>
      let* d3Value := append spare d3Value [k] in
      Sub_collect ks' d3Value
  end.

(** [len(rdv) + len(rdv2)] is computed on natural numbers: two slices that
    are in memory together are too short for the sum to leave [int]. *)
Definition Sub (d d2 : List) : M List :=
  let* rdv := load (List_value d) in
  let* rdv2 := load (List_value d2) in
  let* xs := elems rdv2 in
  let* d2Value := append spare rdv xs in
  let* d2Map := Sub_mark d2Value 0 (s_len d2Value) ∅ in
  let l2 := s_len rdv + s_len rdv2 in
  let* d3Value := make0 l2 in
  let* d3Value := Sub_collect (range_order (map_to_list d2Map).*1) d3Value in
  let* p := new_cell d3Value in
  ret (mkList (Some p) (len d3Value)).

(** [for i, n := range s1 { if n != s2[i] { return false } }; return true]. *)
Fixpoint Equal_loop (s1 s2 : slice) (i n : nat) : M bool :=
  match n with
  | O => ret true
  | S n' =>
      let* a := index s1 (Z.of_nat i) in
      let* b := index s2 (Z.of_nat i) in
      if bool_decide (a ≠ b) then ret false
      else Equal_loop s1 s2 (S i) n'
  end.

Definition Equal (d d2 : List) : M bool :=
  let* s1 := load (List_value d) in
  let* s2 := load (List_value d2) in
  if bool_decide (len s1 ≠ len s2) then ret false
  else Equal_loop s1 s2 0 (s_len s1).

Definition Equals (d d2 : List) : M bool := Equal d d2.

Definition Length (d : List) : M Z := ret (List_length d).

(** Modelled from the spec: [cast.ToStringSlice] of a [[]string], missing
    from the sources, returns the backing sequence verbatim. *)
Definition String (d : List) : M slice := load (List_value d).

Definition Min (d : List) : M Z :=
  let* d2 := load (List_value d) in
  let* xs := elems d2 in
  let d3 := sort_Ints (ToIntSlice xs) in
  index_int d3 0.

Definition Max (d : List) : M Z :=
  let* d2 := load (List_value d) in
  let* xs := elems d2 in
  let d3 := sort_Ints (ToIntSlice xs) in
  index_int d3 (Z.of_nat (length d3) - 1).

(** [for i, v := range *fat { if v == s { return i, true } }; return -1, false]. *)
Fixpoint inI_loop (fat : slice) (s : string) (i n : nat) : M (Z * bool) :=
  match n with
  | O => ret ((-1)%Z, false)
  | S n' =>
      let* v := index fat (Z.of_nat i) in
      if bool_decide (v = s) then ret (Z.of_nat i, true)
      else inI_loop fat s (S i) n'
  end.

Definition inI (fat : option loc) (sub : value) : M (Z * bool) :=
  let s := ToString sub in
  let* f := load fat in
  inI_loop f s 0 (s_len f).

Definition In (d : List) (sub : value) : M bool :=
  let* r := inI (List_value d) sub in
  ret (snd r).

Definition Index (d : List) (sub : value) : M Z :=
  let* r := inI (List_value d) sub in
  ret (fst r).

Definition Extend (d : List) (sub : value) : M unit :=
  let subs := ToStringSlice sub in
  let* s := load (List_value d) in
  let* r := append spare s subs in
  store (List_value d) r.

Definition Pop (d : List) (idx : Z) : M unit :=
  let* fats := load (List_value d) in
  let idx := if bool_decide (idx < 0)%Z
             then int_add (List_length d) idx else idx in
  let* a := slice_to fats idx in
  let* b := slice_from fats (int_add idx 1) in
  let* xs := elems b in
  let* r := append spare a xs in
  store (List_value d) r.

(** [for i, v := range fats { if v == str { *d.value = append(fats[:i], fats[(i+1):]...) } }]:
    the loop runs over the original header [fats] for all of its [len]
    positions and reads each [v] from the array as it is at that moment. *)
Fixpoint Remove_loop (d : List) (fats : slice) (str : string) (i n : nat) : M unit :=
  match n with
  | O => ret tt
  | S n' =>
      let* v := index fats (Z.of_nat i) in
      run (if bool_decide (v = str) then
             let* a := slice_to fats (Z.of_nat i) in
             let* b := slice_from fats (int_add (Z.of_nat i) 1) in
             let* xs := elems b in
             let* r := append spare a xs in
             store (List_value d) r
           else ret tt) in
      Remove_loop d fats str (S i) n'
  end.

Definition Remove (d : List) (v : value) : M unit :=
  let* fats := load (List_value d) in
  let str := ToString v in
  Remove_loop d fats str 0 (s_len fats).

Definition Append (d : List) (v : value) : M unit :=
  let* fats := load (List_value d) in
  let str := ToString v in
  let* r := append spare fats [str] in
  store (List_value d) r.

Definition Insert (d : List) (idx : Z) (v : value) : M unit :=
  let* fats := load (List_value d) in
  let str := ToString v in
  let* a := slice_to fats idx in
  let* res := append spare a [str] in
  let* b := slice_from fats idx in
  let* xs := elems b in
  let* r := append spare res xs in
  store (List_value d) r.

(** [for _, v := range fats { if v == str { count += 1 } }]. *)
Fixpoint Count_loop (fats : slice) (str : string) (i n : nat) (count : Z) : M Z :=
  match n with
  | O => ret count
  | S n' =>
      let* v := index fats (Z.of_nat i) in
      Count_loop fats str (S i) n'
        (if bool_decide (v = str) then int_add count 1 else count)
  end.

Definition Count (d : List) (v : value) : M Z :=
  let* fats := load (List_value d) in
  let str := ToString v in
  Count_loop fats str 0 (s_len fats) 0.

(** ** The remaining methods *)

(** [cast.ToString] of an [int] and [cast.ToBool] of a string, parameters
    like the other coercions. *)
Variable IntToString : Z -> string.
Variable ToBool : string -> bool.


(** [-val] on an [int]. *)
Definition int_neg (a : Z) : Z := wrap (- a).

(** [for _, v := range *d.value { if val := cast.ToInt(v); val < 0 { ... } else { ... } }]. *)
Fixpoint Abs_loop (src : slice) (i n : nat) (d2Value : slice) : M slice :=
  match n with
  | O => ret d2Value
  | S n' =>
      let* v := index src (Z.of_nat i) in
      let val := ToInt v in
      let* d2Value :=
        if bool_decide (val < 0)%Z
        then append spare d2Value [IntToString (int_neg val)]
        else append spare d2Value [v] in
      Abs_loop src (S i) n' d2Value
  end.

Definition Abs (d : List) : M List :=
  let* d := ensureInitialized d in
  let* s := load (List_value d) in
  let* d2Value := make0 (s_len s) in
  let* src := load (List_value d) in
  let* d2Value := Abs_loop src 0 (s_len src) d2Value in
  let* p := new_cell d2Value in
  ret (mkList (Some p) (List_length d)).



(** [for _, item := range *d.value { total += cast.ToInt(item) }]. *)
Fixpoint Sum_loop (s : slice) (i n : nat) (total : Z) : M Z :=
  match n with
  | O => ret total
  | S n' =>
      let* item := index s (Z.of_nat i) in
      Sum_loop s (S i) n' (int_add total (ToInt item))
  end.

Definition Sum (d : List) : M Z :=
  let* s := load (List_value d) in
  Sum_loop s 0 (s_len s) 0.

(** ** Predicates used in the statements *)

(** An initialised list whose header lies within its array. *)
Definition live (h : heap) (d : List) : Prop :=
  exists s, backing h d = Some s /\ inb h s.

(** Arrays never shrink or disappear: a header within bounds stays so. *)
Definition extends (h h' : heap) : Prop :=
  cells h' = cells h /\
  forall a, length (array_at h a) <= length (array_at h' a).

(** The index [Pop] works with: a negative [idx] is taken relative to the
    cached [length]. *)
Definition effective_index (d : List) (idx : Z) : Z :=
  if bool_decide (idx < 0)%Z then int_add (List_length d) idx else idx.

(** What [fats[idx:]] shows once [append(fats[:idx], str)] has run: below
    [len(fats)] that append works in place and has overwritten position
    [idx] of the array shared with [fats]. *)
Definition clobbered (str : string) (rest : list string) : list string :=
  match rest with
  | [] => []
  | _ :: tl => str :: tl
  end.

(** The exact total of the elements' integer coercions. *)
Definition total_of (l : list string) : Z := foldr Z.add 0%Z (map ToInt l).

(** The string [Abs] puts in place of [v]. *)
Definition abs_text (v : string) : string :=
  if bool_decide (ToInt v < 0)%Z then IntToString (int_neg (ToInt v)) else v.

(** Proof steps that sweep the whole context must not pick up the
    parameters a statement does not mention. *)
Ltac drop_unused :=
  try clear IntToString; try clear ToBool; try clear int_text;
  try clear range_order; try clear FormatInt64; try clear ToInt;
  try clear ToStringSlice; try clear spare; try clear ToString;
  try clear value.

(** ** The store primitives *)

Lemma wf_slice_inb h s :
  wf_slice h s = true -> inb h s /\ (Z.of_nat (s_len s) <= max_int)%Z.
Proof.
  unfold wf_slice, inb. rewrite !andb_true_iff, !bool_decide_eq_true. tauto.
Qed.

Lemma wf_backing h d :
  wf h d = true ->
  exists p s, List_value d = Some p /\ cells h !! p = Some s /\
              wf_slice h s = true /\ contents h d = view h s.
Proof.
  unfold wf, contents, backing. destruct (List_value d) as [p|]; [|done].
  destruct (cells h !! p) as [s|] eqn:E; [|done]. intros Hw.
  exists p, s. by rewrite E.
Qed.

Lemma view_length h s : inb h s -> length (view h s) = s_len s.
Proof.
  intros [H1 H2]. unfold view. rewrite length_take, length_drop. lia.
Qed.

Lemma view_lookup h s i :
  i < s_len s -> view h s !! i = array_at h (s_arr s) !! (s_off s + i).
Proof.
  intros Hi. unfold view. by rewrite lookup_take_lt, lookup_drop.
Qed.

Lemma index_view h s i :
  inb h s -> i < s_len s ->
  exists x, view h s !! i = Some x /\ index s (Z.of_nat i) h = Ok x h.
Proof.
  intros Hb Hi. destruct (view h s !! i) as [x|] eqn:E.
  - exists x. split; [done|]. unfold index, len.
    rewrite bool_decide_eq_true_2 by lia.
    rewrite Nat2Z.id. rewrite view_lookup in E by done. by rewrite E.
  - apply lookup_ge_None in E. rewrite view_length in E by done. lia.
Qed.

Lemma index_out_of_range h s i :
  ~ (0 <= i < len s)%Z -> index s i h = Panic OutOfRange.
Proof. intros Hi. unfold index. by rewrite bool_decide_eq_false_2. Qed.

Lemma write_at_length arr pos xs :
  pos + length xs <= length arr -> length (write_at arr pos xs) = length arr.
Proof.
  intros H. unfold write_at.
  rewrite !length_app, length_take, length_drop. lia.
Qed.

Lemma write_at_prefix arr pos xs n :
  pos + length xs <= length arr -> n <= pos ->
  take n (write_at arr pos xs) = take n arr.
Proof.
  intros H Hn. unfold write_at.
  rewrite take_app_le by (rewrite length_take; lia).
  rewrite take_take. f_equal. lia.
Qed.

Lemma extends_inb h h' s : extends h h' -> inb h s -> inb h' s.
Proof.
  intros [_ He] [H1 H2]. split; [done|]. specialize (He (s_arr s)). lia.
Qed.

Lemma array_at_insert h a arr' b :
  array_at (Heap (<[a := arr']> (arrays h)) (cells h)) b =
  if decide (a = b) then
    if decide (a < length (arrays h)) then arr' else []
  else array_at h b.
Proof.
  unfold array_at; simpl. rewrite list_lookup_insert.
  destruct (decide (a = b)) as [->|Hne].
  - destruct (decide (b < length (arrays h))) as [Hlt|Hge].
    + by rewrite decide_True by lia.
    + rewrite decide_False by lia.
      by rewrite (proj2 (lookup_ge_None (arrays h) b)) by lia.
  - by rewrite decide_False by lia.
Qed.

Lemma array_at_snoc h arr b :
  array_at (Heap (arrays h ++ [arr]) (cells h)) b =
  if decide (b = length (arrays h)) then arr
  else array_at h b.
Proof.
  unfold array_at; simpl. destruct (decide (b = length (arrays h))) as [->|Hne].
  - by rewrite lookup_app_r, Nat.sub_diag by lia.
  - destruct (decide (b < length (arrays h))).
    + by rewrite lookup_app_l by done.
    + rewrite !(proj2 (lookup_ge_None _ _)); [done|lia|].
      rewrite length_app; simpl; lia.
Qed.


Lemma view_write_at arr off n xs :
  off + n + length xs <= length arr ->
  take (n + length xs) (drop off (write_at arr (off + n) xs)) =
  take n (drop off arr) ++ xs.
Proof.
  intros H. unfold write_at.
  rewrite drop_app_le by (rewrite length_take; lia).
  rewrite <- take_drop_commute.
  assert (Hl : length (take n (drop off arr)) = n)
    by (rewrite length_take, length_drop; lia).
  rewrite take_app_ge by lia. rewrite Hl.
  replace (n + length xs - n) with (length xs) by lia.
  by rewrite take_app_length.
Qed.

(** [append] always succeeds on a header within bounds; the result shows
    the old elements followed by the new ones. *)
Lemma append_spec h s xs :
  inb h s ->
  exists r h', append spare s xs h = Ok r h' /\
               view h' r = view h s ++ xs /\
               extends h h' /\ inb h' r /\
               s_len r = s_len s + length xs.
Proof.
  intros Hb. pose proof Hb as [H1 H2]. unfold append.
  destruct (bool_decide (s_len s + length xs <= s_cap s)) eqn:Hfit.
  - apply bool_decide_eq_true in Hfit. destruct xs as [|x xs'].
    + exists s, h. rewrite app_nil_r. simpl.
      repeat split; try done; lia.
    + set (xs := x :: xs') in *.
      assert (Hlen : 1 <= length xs) by (simpl; lia).
      destruct (arrays h !! s_arr s) as [arr|] eqn:Ea.
      2:{ unfold array_at in H2. rewrite Ea in H2. simpl in H2. lia. }
      assert (Harr : array_at h (s_arr s) = arr)
        by (unfold array_at; by rewrite Ea).
      assert (Hlt : s_arr s < length (arrays h))
        by (eapply lookup_lt_Some; eauto).
      rewrite Harr in H2.
      eexists _, _. split; [reflexivity|].
      assert (Hnew : forall b,
        array_at (Heap (<[s_arr s := write_at arr (s_off s + s_len s) xs]> (arrays h)) (cells h)) b
        = if decide (s_arr s = b) then write_at arr (s_off s + s_len s) xs
          else array_at h b).
      { intros b. rewrite array_at_insert.
        destruct (decide (s_arr s = b)); [|done]. by rewrite decide_True. }
      unfold inb, extends.
      repeat split; cbn [s_arr s_off s_len s_cap arrays cells].
      * unfold view at 1; cbn [s_arr s_off s_len s_cap]. rewrite Hnew, decide_True by done.
        rewrite (view_write_at arr (s_off s) (s_len s) xs) by lia.
        unfold view. by rewrite Harr.
      * intros b. rewrite Hnew. destruct (decide (s_arr s = b)) as [<-|]; [|done].
        rewrite write_at_length by lia. by rewrite Harr.
      * lia.
      * rewrite Hnew, decide_True by done. rewrite write_at_length; lia.
  - apply bool_decide_eq_false in Hfit.
    eexists _, _. split; [reflexivity|].
    set (n := s_len s + length xs).
    set (c := n + spare (s_cap s) n).
    assert (Hv : length (view h s) = s_len s) by by apply view_length.
    unfold inb, extends.
    repeat split; cbn [s_arr s_off s_len s_cap arrays cells].
    + unfold view at 1; cbn [s_arr s_off s_len s_cap]. rewrite array_at_snoc, decide_True by done.
      rewrite drop_0, app_assoc.
      rewrite take_app_le by (rewrite length_app; lia).
      apply take_ge. rewrite length_app. lia.
    + intros b. rewrite array_at_snoc.
      destruct (decide (b = length (arrays h))) as [->|]; [|done].
      unfold array_at. rewrite (proj2 (lookup_ge_None _ _)); simpl; lia.
    + lia.
    + rewrite array_at_snoc, decide_True by done.
      rewrite !length_app, length_replicate. lia.
Qed.


(** ** Loading and storing through the list's pointer *)

Lemma wf_live h d : wf h d = true -> live h d.
Proof.
  intros (p & s & Hp & Hc & Hw & _)%wf_backing.
  exists s. split; [unfold backing; by rewrite Hp|].
  by apply wf_slice_inb in Hw as [? _].
Qed.

Lemma load_backing h d s :
  backing h d = Some s -> load (List_value d) h = Ok s h.
Proof.
  unfold backing, load. destruct (List_value d) as [p|]; [|done].
  by intros ->.
Qed.

Lemma store_backing h0 h d s r :
  backing h0 d = Some s -> cells h = cells h0 ->
  exists h', store (List_value d) r h = Ok tt h' /\
             backing h' d = Some r /\ arrays h' = arrays h.
Proof.
  unfold backing, store. destruct (List_value d) as [p|]; [|done].
  intros Hs Hc. rewrite Hc, Hs. eexists. split; [reflexivity|].
  simpl. split; [|done]. apply list_lookup_insert_eq.
  eapply lookup_lt_Some; eauto.
Qed.

Lemma view_arrays h h' s : arrays h' = arrays h -> view h' s = view h s.
Proof. intros E. unfold view, array_at. by rewrite E. Qed.

Lemma inb_arrays h h' s : arrays h' = arrays h -> inb h s -> inb h' s.
Proof. intros E. unfold inb, array_at. by rewrite E. Qed.

Lemma contents_backing h d s : backing h d = Some s -> contents h d = view h s.
Proof. unfold contents. by intros ->. Qed.

(** ** [Append] and [Extend] *)

Lemma push_spec h d s xs :
  backing h d = Some s -> inb h s ->
  exists r h',
    (let* s := load (List_value d) in
     let* r := append spare s xs in
     store (List_value d) r) h = Ok tt h' /\
    backing h' d = Some r /\ inb h' r /\
    view h' r = view h s ++ xs.
Proof.
  intros Hs Hb. unfold bind. rewrite (load_backing _ _ _ Hs).
  destruct (append_spec h s xs Hb) as (r & h1 & -> & Hv & [Hc He] & Hb1 & _).
  destruct (store_backing h h1 d s r Hs Hc) as (h2 & -> & Hs2 & Ha).
  exists r, h2. repeat split; [done|by eapply inb_arrays..|].
  by rewrite (view_arrays _ _ _ Ha).
Qed.

Lemma Append_spec h d v :
  live h d ->
  exists h', Append d v h = Ok tt h' /\ live h' d /\
             contents h' d = contents h d ++ [ToString v].
Proof.
  intros (s & Hs & Hb).
  destruct (push_spec h d s [ToString v] Hs Hb) as (r & h' & Hrun & Hs' & Hb' & Hv).
  exists h'. split; [exact Hrun|]. split; [by exists r|].
  by rewrite (contents_backing _ _ _ Hs), (contents_backing _ _ _ Hs').
Qed.

Lemma Extend_spec h d sub :
  live h d ->
  exists h', Extend d sub h = Ok tt h' /\ live h' d /\
             contents h' d = contents h d ++ ToStringSlice sub.
Proof.
  intros (s & Hs & Hb).
  destruct (push_spec h d s (ToStringSlice sub) Hs Hb) as (r & h' & Hrun & Hs' & Hb' & Hv).
  exists h'. split; [exact Hrun|]. split; [by exists r|].
  by rewrite (contents_backing _ _ _ Hs), (contents_backing _ _ _ Hs').
Qed.

(** ** [inI] and [Index] *)

Lemma inI_loop_spec h f s n : forall i,
  inb h f -> i + n = s_len f ->
  inI_loop f s i n h =
  Ok (match list_find (fun x => x = s) (drop i (view h f)) with
      | Some (j, _) => (Z.of_nat (i + j), true)
      | None => ((-1)%Z, false)
      end) h.
Proof.
  induction n as [|n IH]; intros i Hb Hi.
  - simpl. rewrite drop_ge by (rewrite view_length by done; lia). done.
  - destruct (index_view h f i Hb) as (x & Hx & Hidx); [lia|].
    cbn [inI_loop]. unfold bind at 1. rewrite Hidx.
    rewrite (drop_S _ _ _ Hx). cbn [list_find].
    destruct (decide (x = s)) as [->|Hne].
    + rewrite bool_decide_eq_true_2 by done. simpl.
      unfold ret. do 3 f_equal. lia.
    + rewrite bool_decide_eq_false_2 by done.
      rewrite IH by (done || lia).
      destruct (list_find _ (drop (S i) (view h f))) as [[j y]|]; simpl; [|done].
      do 3 f_equal. lia.
Qed.

Lemma Index_spec h d v :
  live h d ->
  Index d v h =
  Ok (match list_find (fun x => x = ToString v) (contents h d) with
      | Some (j, _) => Z.of_nat j
      | None => (-1)%Z
      end) h.
Proof.
  intros (s & Hs & Hb). unfold Index, inI, bind.
  rewrite (load_backing _ _ _ Hs).
  rewrite (inI_loop_spec h s (ToString v) (s_len s) 0 Hb) by lia.
  rewrite drop_0, (contents_backing _ _ _ Hs).
  by destruct (list_find _ (view h s)) as [[j y]|].
Qed.


(** ** [Equal] *)

Lemma Equal_loop_spec h s1 s2 n : forall i,
  inb h s1 -> inb h s2 -> s_len s1 = s_len s2 -> i + n = s_len s1 ->
  Equal_loop s1 s2 i n h =
  Ok (bool_decide (drop i (view h s1) = drop i (view h s2))) h.
Proof.
  induction n as [|n IH]; intros i Hb1 Hb2 Hl Hi.
  - simpl. rewrite !drop_ge by (rewrite view_length by done; lia). done.
  - destruct (index_view h s1 i Hb1) as (x & Hx & Hix); [lia|].
    destruct (index_view h s2 i Hb2) as (y & Hy & Hiy); [lia|].
    cbn [Equal_loop]. unfold bind at 1. rewrite Hix.
    unfold bind at 1. rewrite Hiy.
    rewrite (drop_S _ _ _ Hx), (drop_S _ _ _ Hy).
    destruct (decide (x = y)) as [->|Hne].
    + rewrite bool_decide_eq_false_2 by (intros ?; done).
      rewrite IH by (done || lia). f_equal.
      apply bool_decide_ext. split; [by intros ->|by intros [=]].
    + rewrite bool_decide_eq_true_2 by done. unfold ret. f_equal.
      symmetry. apply bool_decide_eq_false_2. by intros [=].
Qed.

(** [Equal] decides equality of the two backing sequences. *)
Lemma Equal_spec h d d2 :
  live h d -> live h d2 ->
  Equal d d2 h = Ok (bool_decide (contents h d = contents h d2)) h.
Proof.
  intros (s1 & Hs1 & Hb1) (s2 & Hs2 & Hb2). unfold Equal, bind.
  rewrite (load_backing _ _ _ Hs1), (load_backing _ _ _ Hs2).
  rewrite (contents_backing _ _ _ Hs1), (contents_backing _ _ _ Hs2).
  unfold len. destruct (decide (s_len s1 = s_len s2)) as [El|Nl].
  - rewrite bool_decide_eq_false_2 by lia.
    rewrite (Equal_loop_spec h s1 s2 (s_len s1) 0) by (done || lia).
    by rewrite !drop_0.
  - rewrite bool_decide_eq_true_2 by lia. unfold ret. f_equal.
    symmetry. apply bool_decide_eq_false_2. intros E.
    apply Nl. by rewrite <- (view_length h s1), <- (view_length h s2), E.
Qed.


(** ** Re-slicing and [Pop] *)

Lemma wrap_small z : (min_int <= z <= max_int)%Z -> wrap z = z.
Proof.
  unfold min_int, max_int, wrap. intros H.
  rewrite Z.mod_small; lia.
Qed.

Lemma view_reslice h s lo hi c :
  hi <= s_len s ->
  view h (Slice (s_arr s) (s_off s + lo) (hi - lo) c) =
  take (hi - lo) (drop lo (view h s)).
Proof.
  intros Hhi. unfold view; cbn [s_arr s_off s_len].
  destruct (decide (lo <= hi)) as [Hle|Hgt].
  - replace (s_len s) with (lo + (s_len s - lo)) at 1 by lia.
    rewrite <- take_drop_commute, take_take, drop_drop.
    f_equal. lia.
  - replace (hi - lo) with 0 by lia. done.
Qed.

Lemma reslice_ok s lo hi :
  (0 <= lo)%Z -> (lo <= hi)%Z -> (hi <= Z.of_nat (s_cap s))%Z ->
  forall h, reslice s lo hi h =
    Ok (Slice (s_arr s) (s_off s + Z.to_nat lo)
              (Z.to_nat hi - Z.to_nat lo) (s_cap s - Z.to_nat lo)) h.
Proof.
  intros H1 H2 H3 h. unfold reslice.
  by rewrite bool_decide_eq_true_2 by lia.
Qed.

Lemma reslice_out_of_range s lo hi h :
  ~ (0 <= lo /\ lo <= hi /\ hi <= Z.of_nat (s_cap s))%Z ->
  reslice s lo hi h = Panic OutOfRange.
Proof. intros H. unfold reslice. by rewrite bool_decide_eq_false_2. Qed.

(** [append(fats[:e], fats[(e+1):]...)] followed by the store, for a
    position [e] inside the slice [fats]; the list's variable may hold
    another header [c] by now. *)
Lemma cut_spec h d c fats e :
  backing h d = Some c -> inb h fats ->
  (Z.of_nat (s_len fats) <= max_int)%Z -> e < s_len fats ->
  exists r h',
    (let* a := slice_to fats (Z.of_nat e) in
     let* b := slice_from fats (int_add (Z.of_nat e) 1) in
     let* xs := elems b in
     let* r := append spare a xs in
     store (List_value d) r) h = Ok tt h' /\
    backing h' d = Some r /\ inb h' r /\
    (forall s', inb h s' -> inb h' s') /\
    s_len r = s_len fats - 1 /\
    view h' r = take e (view h fats) ++ drop (S e) (view h fats).
Proof.
  intros Hs Hb Hmax He. pose proof Hb as [Hb1 Hb2].
  unfold slice_to, slice_from, len, int_add.
  rewrite wrap_small by (unfold min_int, max_int in *; lia).
  unfold bind at 1. rewrite reslice_ok by lia.
  unfold bind at 1. rewrite reslice_ok by lia.
  unfold bind at 1, elems at 1.
  change (Z.to_nat 0) with 0.
  replace (Z.to_nat (Z.of_nat e + 1)) with (S e) by lia.
  rewrite !Nat2Z.id.
  rewrite (view_reslice h fats (S e) (s_len fats)) by lia.
  rewrite take_ge by (rewrite length_drop, view_length by done; lia).
  set (a := Slice (s_arr fats) (s_off fats + 0) (e - 0) (s_cap fats - 0)).
  assert (Hba : inb h a).
  { unfold inb, a; cbn [s_arr s_off s_len s_cap]. lia. }
  assert (Hva : view h a = take e (view h fats)).
  { unfold a. rewrite (view_reslice h fats 0 e) by lia.
    by rewrite Nat.sub_0_r, drop_0. }
  destruct (append_spec h a (drop (S e) (view h fats)) Hba)
    as (r & h1 & Happ & Hv & Hext & Hb1' & Hlen).
  unfold bind at 1. rewrite Happ.
  destruct (store_backing h h1 d c r Hs (proj1 Hext)) as (h2 & -> & Hs2 & Ha).
  exists r, h2. split; [done|]. split; [done|].
  split; [by eapply inb_arrays|]. split; [|split].
  - intros s' Hs'. eapply inb_arrays; [done|]. by eapply extends_inb.
  - rewrite Hlen, length_drop, view_length by done.
    unfold a; cbn [s_len]. lia.
  - by rewrite (view_arrays _ _ _ Ha), Hv, Hva.
Qed.

Lemma Pop_spec h d idx :
  wf h d = true ->
  (0 <= effective_index d idx < Z.of_nat (length (contents h d)))%Z ->
  exists h', Pop d idx h = Ok tt h' /\ live h' d /\
    contents h' d =
      take (Z.to_nat (effective_index d idx)) (contents h d) ++
      drop (S (Z.to_nat (effective_index d idx))) (contents h d).
Proof.
  intros (p & s & Hp & Hc & Hw & Hcont)%wf_backing He.
  apply wf_slice_inb in Hw as [Hb Hmax].
  assert (Hs : backing h d = Some s) by (unfold backing; by rewrite Hp).
  rewrite Hcont in *. rewrite view_length in He by done.
  set (e := Z.to_nat (effective_index d idx)).
  destruct (cut_spec h d s s e Hs Hb Hmax) as (r & h' & Hrun & Hs' & Hb' & _ & _ & Hv);
    [lia|].
  exists h'. split.
  - unfold Pop, bind at 1. rewrite (load_backing _ _ _ Hs).
    fold (effective_index d idx).
    replace (effective_index d idx) with (Z.of_nat e) by lia.
    exact Hrun.
  - split; [by exists r|]. by rewrite (contents_backing _ _ _ Hs').
Qed.


(** ** [Remove] *)

(** The loop always runs to its end.  The list's variable ends up holding a
    header that is either as long as before or one shorter than [fats];
    the latter whenever some position from [i] on holds [str]. *)
Lemma Remove_loop_spec d fats str n : forall i h c,
  backing h d = Some c -> inb h fats -> inb h c ->
  (Z.of_nat (s_len fats) <= max_int)%Z -> i + n = s_len fats ->
  exists h' c',
    Remove_loop d fats str i n h = Ok tt h' /\
    backing h' d = Some c' /\ inb h' c' /\
    (s_len c' = s_len c \/ s_len c' = s_len fats - 1) /\
    ((exists j, i <= j /\ view h fats !! j = Some str) ->
     s_len c' = s_len fats - 1).
Proof.
  induction n as [|n IH]; intros i h c Hs Hb Hc Hmax Hi.
  - exists h, c. split_and!; [done..|by left|].
    intros (j & Hj & Hl). apply lookup_lt_Some in Hl.
    rewrite view_length in Hl by done. lia.
  - destruct (index_view h fats i Hb) as (x & Hx & Hidx); [lia|].
    cbn [Remove_loop]. unfold bind at 1. rewrite Hidx.
    destruct (decide (x = str)) as [->|Hne].
    + rewrite bool_decide_eq_true_2 by done.
      destruct (cut_spec h d c fats i Hs Hb Hmax)
        as (r & h1 & Hrun & Hs1 & Hb1 & Hkeep & Hlen & _); [lia|].
      unfold bind at 1. rewrite Hrun.
      destruct (IH (S i) h1 r Hs1 (Hkeep _ Hb) Hb1 Hmax)
        as (h' & c' & Hloop & Hs' & Hb' & Hsz & _); [lia|].
      exists h', c'. split_and!; [done..| |]; intros; lia.
    + rewrite bool_decide_eq_false_2 by done.
      unfold bind at 1, ret at 1.
      destruct (IH (S i) h c Hs Hb Hc Hmax)
        as (h' & c' & Hloop & Hs' & Hb' & Hsz & Hhit); [lia|].
      exists h', c'. split_and!; [done..|].
      intros (j & Hj & Hl). apply Hhit. exists j. split; [|done].
      destruct (decide (j = i)) as [->|]; [|lia]. congruence.
Qed.

(** Without a matching element the loop does not touch the store. *)
Lemma Remove_loop_absent d fats str h n : forall i,
  inb h fats -> i + n = s_len fats ->
  (forall j, i <= j -> view h fats !! j ≠ Some str) ->
  Remove_loop d fats str i n h = Ok tt h.
Proof.
  induction n as [|n IH]; intros i Hb Hi Hno; [done|].
  destruct (index_view h fats i Hb) as (x & Hx & Hidx); [lia|].
  cbn [Remove_loop]. unfold bind at 1. rewrite Hidx.
  rewrite bool_decide_eq_false_2.
  - unfold bind at 1, ret at 1. apply IH; [done|lia|].
    intros j Hj. apply Hno. lia.
  - intros ->. by apply (Hno i).
Qed.

Lemma Remove_absent h d v :
  live h d -> ToString v ∉ contents h d -> Remove d v h = Ok tt h.
Proof.
  intros (s & Hs & Hb) Hno. unfold Remove, bind.
  rewrite (load_backing _ _ _ Hs).
  apply Remove_loop_absent; [done|lia|].
  intros j _ Hl. apply Hno. rewrite (contents_backing _ _ _ Hs).
  by eapply list_elem_of_lookup_2.
Qed.

Lemma Remove_present h d v :
  wf h d = true -> ToString v ∈ contents h d ->
  exists h', Remove d v h = Ok tt h' /\ live h' d /\
             length (contents h' d) = length (contents h d) - 1.
Proof.
  intros (p & s & Hp & Hc & Hw & Hcont)%wf_backing Hin.
  apply wf_slice_inb in Hw as [Hb Hmax].
  assert (Hs : backing h d = Some s) by (unfold backing; by rewrite Hp).
  rewrite Hcont in *.
  destruct (Remove_loop_spec d s (ToString v) (s_len s) 0 h s Hs Hb Hb Hmax)
    as (h' & c' & Hloop & Hs' & Hb' & _ & Hhit); [lia|].
  exists h'. split.
  - unfold Remove, bind. by rewrite (load_backing _ _ _ Hs).
  - split; [by exists c'|].
    rewrite (contents_backing _ _ _ Hs'), !view_length by done.
    apply Hhit. apply list_elem_of_lookup_1 in Hin as [j Hj].
    exists j. split; [lia|done].
Qed.


(** ** [Insert] *)

Lemma append_in_place h s xs :
  inb h s -> s_len s + length xs <= s_cap s -> xs ≠ [] ->
  exists arr,
    arrays h !! s_arr s = Some arr /\
    append spare s xs h =
    Ok (Slice (s_arr s) (s_off s) (s_len s + length xs) (s_cap s))
       (Heap (<[s_arr s := write_at arr (s_off s + s_len s) xs]> (arrays h))
             (cells h)).
Proof.
  intros [H1 H2] Hfit Hne. unfold append.
  rewrite bool_decide_eq_true_2 by done.
  destruct xs as [|x xs']; [done|].
  destruct (arrays h !! s_arr s) as [arr|] eqn:Ea.
  - by exists arr.
  - unfold array_at in H2. rewrite Ea in H2. simpl in *. lia.
Qed.

Lemma view_after_overwrite h fats idx str h1 res :
  inb h fats -> idx <= s_len fats ->
  append spare (Slice (s_arr fats) (s_off fats + 0) (idx - 0) (s_cap fats - 0))
         [str] h = Ok res h1 ->
  view h1 (Slice (s_arr fats) (s_off fats + idx) (s_len fats - idx)
                 (s_cap fats - idx)) =
  clobbered str (drop idx (view h fats)).
Proof.
  intros Hb Hidx Happ. pose proof Hb as [Hb1 Hb2].
  destruct (decide (idx = s_len fats)) as [->|Hlt].
  - rewrite drop_ge by (rewrite view_length by done; lia).
    unfold view; cbn [s_len]. by rewrite Nat.sub_diag.
  - set (a := Slice (s_arr fats) (s_off fats + 0) (idx - 0) (s_cap fats - 0)) in *.
    assert (Hba : inb h a).
    { unfold inb, a; cbn [s_arr s_off s_len s_cap]. lia. }
    destruct (append_in_place h a [str] Hba) as (arr & Ea & Hrun);
      [unfold a; cbn [s_len s_cap length]; lia|done|].
    rewrite Hrun in Happ. injection Happ as _ <-.
    unfold a in *; cbn [s_arr s_off s_len s_cap] in *.
    assert (Harr : array_at h (s_arr fats) = arr)
      by (unfold array_at; by rewrite Ea).
    assert (Hlt' : s_arr fats < length (arrays h))
      by (eapply lookup_lt_Some; eauto).
    rewrite Harr in Hb2.
    unfold view; cbn [s_arr s_off s_len].
    rewrite array_at_insert, !decide_True by done. rewrite Harr.
    unfold write_at. cbn [length].
    replace (s_off fats + 0 + (idx - 0)) with (s_off fats + idx) by lia.
    rewrite drop_app_length' by (rewrite length_take; lia).
    destruct (lookup_lt_is_Some_2 arr (s_off fats + idx)) as [x Hx]; [lia|].
    replace (s_len fats) with (idx + (s_len fats - idx)) at 2 by lia.
    rewrite <- take_drop_commute, drop_drop.
    rewrite (drop_S _ _ _ Hx).
    replace (s_len fats - idx) with (S (s_len fats - idx - 1)) by lia.
    cbn [take app clobbered]. do 3 f_equal. lia.
Qed.

(** [Insert] at a position within [0 .. len] always runs to its end and
    leaves one more element, but the element that was at [idx] is replaced
    by a second copy of the new string. *)
Lemma Insert_spec h d idx v :
  live h d -> idx <= length (contents h d) ->
  exists h', Insert d (Z.of_nat idx) v h = Ok tt h' /\ live h' d /\
    contents h' d =
      take idx (contents h d) ++ [ToString v] ++
      clobbered (ToString v) (drop idx (contents h d)).
Proof.
  intros (fats & Hs & Hb) Hidx. pose proof Hb as [Hb1 Hb2].
  rewrite (contents_backing _ _ _ Hs) in *.
  rewrite view_length in Hidx by done.
  unfold Insert, bind at 1. rewrite (load_backing _ _ _ Hs).
  unfold slice_to, slice_from, len.
  unfold bind at 1. rewrite reslice_ok by lia.
  change (Z.to_nat 0) with 0. rewrite !Nat2Z.id.
  set (a := Slice (s_arr fats) (s_off fats + 0) (idx - 0) (s_cap fats - 0)).
  assert (Hba : inb h a).
  { unfold inb, a; cbn [s_arr s_off s_len s_cap]. lia. }
  assert (Hva : view h a = take idx (view h fats)).
  { unfold a. rewrite (view_reslice h fats 0 idx) by lia.
    by rewrite Nat.sub_0_r, drop_0. }
  destruct (append_spec h a [ToString v] Hba)
    as (res & h1 & Happ & Hv & Hext & Hbres & _).
  unfold bind at 1. rewrite Happ.
  unfold bind at 1. rewrite reslice_ok by lia. rewrite !Nat2Z.id.
  unfold bind at 1, elems at 1.
  rewrite (view_after_overwrite h fats idx (ToString v) h1 res Hb Hidx Happ).
  destruct (append_spec h1 res (clobbered (ToString v) (drop idx (view h fats))) Hbres)
    as (r & h2 & Happ2 & Hv2 & Hext2 & Hbr & _).
  unfold bind at 1. rewrite Happ2.
  destruct (store_backing h h2 d fats r Hs) as (h3 & -> & Hs3 & Ha).
  { by rewrite (proj1 Hext2), (proj1 Hext). }
  exists h3. split; [done|]. split.
  - exists r. split; [done|]. by eapply inb_arrays.
  - rewrite (contents_backing _ _ _ Hs3), (view_arrays _ _ _ Ha).
    by rewrite Hv2, Hv, Hva, <- app_assoc.
Qed.


(** ** [Remove] with a single occurrence *)

Lemma append_nil h s :
  s_len s <= s_cap s -> append spare s [] h = Ok s h.
Proof.
  intros H. unfold append. cbn [length].
  by rewrite bool_decide_eq_true_2 by lia.
Qed.

(** Shifting the tail of a window one position to the left inside its
    array leaves the last position of the window as it was. *)
Lemma shift_left_view arr off n e :
  off + n <= length arr -> e < n ->
  take n (drop off (write_at arr (off + e)
                             (drop (S e) (take n (drop off arr))))) =
  take e (take n (drop off arr)) ++ drop (S e) (take n (drop off arr)) ++
  drop (n - 1) (take n (drop off arr)).
Proof.
  intros Hn He. set (v := take n (drop off arr)).
  assert (Hv : length v = n) by (unfold v; rewrite length_take, length_drop; lia).
  assert (Hxs : length (drop (S e) v) = n - S e) by (rewrite length_drop; lia).
  unfold write_at. rewrite Hxs.
  rewrite drop_app_le by (rewrite length_take; lia).
  rewrite <- take_drop_commute.
  assert (Hpre : take e (drop off arr) = take e v).
  { unfold v. rewrite take_take. f_equal. lia. }
  rewrite Hpre, app_assoc.
  rewrite take_app_ge by (rewrite length_app, length_take, Hxs; lia).
  rewrite length_app, length_take, Hxs, <- app_assoc.
  do 2 f_equal.
  replace (n - (e `min` length v + (n - S e))) with 1 by lia.
  unfold v.
  replace n with (n - 1 + 1) at 3 by lia.
  rewrite <- take_drop_commute, drop_drop.
  do 2 f_equal. lia.
Qed.

(** After [append(fats[:e], fats[(e+1):]...)] the original header [fats]
    shows the shifted elements followed by its old last element. *)
Lemma cut_view_fats h d c fats e r h' :
  backing h d = Some c -> inb h fats ->
  (Z.of_nat (s_len fats) <= max_int)%Z -> e < s_len fats ->
  (let* a := slice_to fats (Z.of_nat e) in
   let* b := slice_from fats (int_add (Z.of_nat e) 1) in
   let* xs := elems b in
   let* r := append spare a xs in
   store (List_value d) r) h = Ok r h' ->
  view h' fats =
    take e (view h fats) ++ drop (S e) (view h fats) ++
    drop (s_len fats - 1) (view h fats).
Proof.
  intros Hs Hb Hmax He. pose proof Hb as [Hb1 Hb2].
  unfold slice_to, slice_from, len, int_add.
  rewrite wrap_small by (unfold min_int, max_int in *; lia).
  unfold bind at 1. rewrite reslice_ok by lia.
  unfold bind at 1. rewrite reslice_ok by lia.
  unfold bind at 1, elems at 1.
  change (Z.to_nat 0) with 0.
  replace (Z.to_nat (Z.of_nat e + 1)) with (S e) by lia.
  rewrite !Nat2Z.id.
  rewrite (view_reslice h fats (S e) (s_len fats)) by lia.
  rewrite take_ge by (rewrite length_drop, view_length by done; lia).
  set (a := Slice (s_arr fats) (s_off fats + 0) (e - 0) (s_cap fats - 0)).
  assert (Hba : inb h a).
  { unfold inb, a; cbn [s_arr s_off s_len s_cap]. lia. }
  assert (Hcell : exists p, List_value d = Some p /\ cells h !! p = Some c).
  { unfold backing in Hs. destruct (List_value d) as [p|]; [|done]. by exists p. }
  destruct Hcell as (p & Hp & Hcp).
  destruct (decide (S e = s_len fats)) as [Hend|Hmid].
  - rewrite drop_ge by (rewrite view_length by done; lia).
    unfold bind at 1. rewrite append_nil by (unfold a; cbn [s_len s_cap]; lia).
    unfold store. rewrite Hp, Hcp. intros [= _ <-].
    rewrite (view_arrays _ h) by done.
    rewrite app_nil_l. replace (s_len fats - 1) with e by lia.
    by rewrite take_drop.
  - assert (Hxs : length (drop (S e) (view h fats)) = s_len fats - S e)
      by (rewrite length_drop, view_length by done; lia).
    destruct (append_in_place h a (drop (S e) (view h fats)) Hba)
      as (arr & Ea & Hrun).
    { unfold a; cbn [s_len s_cap]. lia. }
    { intros E. rewrite E in Hxs. simpl in Hxs. lia. }
    unfold bind at 1. rewrite Hrun.
    unfold store; cbn [cells]. rewrite Hp, Hcp. intros [= _ <-].
    unfold a in *; cbn [s_arr s_off s_len s_cap arrays] in *.
    assert (Harr : array_at h (s_arr fats) = arr)
      by (unfold array_at; by rewrite Ea).
    assert (Hlt : s_arr fats < length (arrays h))
      by (eapply lookup_lt_Some; eauto).
    unfold view at 1. unfold array_at at 1; cbn [arrays].
    rewrite list_lookup_insert_eq by done. cbn [from_option]. unfold id.
    replace (s_off fats + 0 + (e - 0)) with (s_off fats + e) by lia.
    unfold view. rewrite Harr in *.
    apply shift_left_view; lia.
Qed.

(** With a single occurrence of the value [Remove] does remove it: nothing
    matches once the tail has been shifted. *)
Lemma Remove_loop_single d fats str n : forall i h c e,
  backing h d = Some c -> inb h fats ->
  (Z.of_nat (s_len fats) <= max_int)%Z -> i + n = s_len fats ->
  i <= e -> view h fats !! e = Some str ->
  (forall j, j ≠ e -> i <= j -> view h fats !! j ≠ Some str) ->
  exists r h',
    Remove_loop d fats str i n h = Ok tt h' /\
    backing h' d = Some r /\ inb h' r /\
    view h' r = take e (view h fats) ++ drop (S e) (view h fats).
Proof.
  induction n as [|n IH]; intros i h c e Hs Hb Hmax Hi Hie He Hno.
  - apply lookup_lt_Some in He. rewrite view_length in He by done. lia.
  - destruct (index_view h fats i Hb) as (x & Hx & Hidx); [lia|].
    pose proof (lookup_lt_Some _ _ _ He) as Hlt.
    rewrite view_length in Hlt by done.
    cbn [Remove_loop]. unfold bind at 1. rewrite Hidx.
    destruct (decide (i = e)) as [->|Hne].
    + assert (x = str) as -> by congruence.
      rewrite bool_decide_eq_true_2 by done.
      destruct (cut_spec h d c fats e Hs Hb Hmax Hlt)
        as (r & h1 & Hrun & Hs1 & Hb1 & Hkeep & Hlen & Hv).
      pose proof (cut_view_fats h d c fats e tt h1 Hs Hb Hmax Hlt Hrun) as Hf.
      unfold bind at 1. rewrite Hrun.
      exists r, h1. split; [|done].
      apply Remove_loop_absent; [by apply Hkeep|lia|].
      intros j Hj. rewrite Hf.
      assert (Hlv : length (view h fats) = s_len fats) by by apply view_length.
      rewrite lookup_app_r by (rewrite length_take; lia).
      rewrite length_take, Hlv.
      replace (e `min` s_len fats) with e by lia.
      destruct (decide (j < s_len fats - 1)) as [Hjm|Hjl].
      * rewrite lookup_app_l by (rewrite length_drop; lia).
        rewrite lookup_drop. apply Hno; lia.
      * rewrite lookup_app_r by (rewrite length_drop; lia).
        rewrite length_drop, lookup_drop, Hlv.
        destruct (decide (j = s_len fats - 1)) as [->|Hbig].
        -- replace (s_len fats - 1 + (s_len fats - 1 - e - (s_len fats - S e)))
             with (s_len fats - 1) by lia.
           apply Hno; lia.
        -- rewrite (proj2 (lookup_ge_None _ _)); [done|lia].
    + rewrite bool_decide_eq_false_2 by (intros ->; by apply (Hno i)).
      unfold bind at 1, ret at 1.
      apply (IH (S i) h c e); try done; try lia.
      intros j Hj1 Hj2. apply Hno; lia.
Qed.

Lemma Remove_single_occurrence h d v l1 l2 :
  wf h d = true ->
  contents h d = l1 ++ ToString v :: l2 ->
  ToString v ∉ l1 -> ToString v ∉ l2 ->
  exists h', Remove d v h = Ok tt h' /\ live h' d /\
             contents h' d = l1 ++ l2.
Proof.
  intros (p & s & Hp & Hc & Hw & Hcont)%wf_backing Hsplit Hn1 Hn2.
  apply wf_slice_inb in Hw as [Hb Hmax].
  assert (Hs : backing h d = Some s) by (unfold backing; by rewrite Hp).
  rewrite Hcont in Hsplit.
  destruct (Remove_loop_single d s (ToString v) (s_len s) 0 h s (length l1)
              Hs Hb Hmax) as (r & h' & Hrun & Hs' & Hb' & Hv); [lia|lia| | |].
  - rewrite Hsplit. by rewrite lookup_app_r, Nat.sub_diag by lia.
  - intros j Hj _ Hl. rewrite Hsplit in Hl.
    destruct (decide (j < length l1)) as [Hlt|Hge].
    + rewrite lookup_app_l in Hl by done.
      apply Hn1. by eapply list_elem_of_lookup_2.
    + rewrite lookup_app_r in Hl by lia.
      destruct (j - length l1) as [|k] eqn:Ek; [lia|]. cbn in Hl.
      apply Hn2. by eapply list_elem_of_lookup_2.
  - exists h'. split.
    + unfold Remove, bind. by rewrite (load_backing _ _ _ Hs).
    + split; [by exists r|].
      rewrite (contents_backing _ _ _ Hs'), Hv, Hsplit.
      rewrite take_app_length.
      replace (S (length l1)) with (length l1 + 1) by lia.
      rewrite <- drop_drop, drop_app_length. done.
Qed.

(** ** [Sub] *)

Lemma Sub_mark_spec h s n : forall i m,
  inb h s -> i + n = s_len s ->
  exists m', Sub_mark s i n m h = Ok m' h /\
             dom m' = dom m ∪ list_to_set (drop i (view h s)).
Proof.
  induction n as [|n IH]; intros i m Hb Hi.
  - exists m. split; [done|].
    rewrite drop_ge by (rewrite view_length by done; lia).
    (drop_unused; set_solver).
  - destruct (index_view h s i Hb) as (x & Hx & Hidx); [lia|].
    cbn [Sub_mark]. unfold bind at 1. rewrite Hidx.
    rewrite (drop_S _ _ _ Hx), list_to_set_cons.
    destruct (default false (m !! x)) eqn:Hm; cbn [negb].
    + destruct (IH (S i) m Hb) as (m' & -> & Hd); [lia|].
      exists m'. split; [done|]. rewrite Hd.
      assert (x ∈ dom m).
      { destruct (m !! x) eqn:E; [|done]. by eapply elem_of_dom_2. }
      (drop_unused; set_solver).
    + destruct (IH (S i) (<[x := true]> m) Hb) as (m' & -> & Hd); [lia|].
      exists m'. split; [done|]. rewrite Hd, dom_insert_L. (drop_unused; set_solver).
Qed.

Lemma Sub_collect_spec ks : forall h s,
  inb h s ->
  exists r h', Sub_collect ks s h = Ok r h' /\
               view h' r = view h s ++ ks /\ inb h' r /\
               cells h' = cells h.
Proof.
  induction ks as [|k ks IH]; intros h s Hb.
  - exists s, h. by rewrite app_nil_r.
  - destruct (append_spec h s [k] Hb) as (s1 & h1 & Happ & Hv & [Hc _] & Hb1 & _).
    destruct (IH h1 s1 Hb1) as (r & h' & Hrun & Hv' & Hb' & Hc').
    exists r, h'. cbn [Sub_collect]. unfold bind at 1. rewrite Happ.
    split; [done|]. split; [|split; [done|congruence]].
    by rewrite Hv', Hv, <- app_assoc.
Qed.

Lemma keys_of_map (m : gmap string bool) k :
  k ∈ (map_to_list m).*1 ↔ k ∈ dom m.
Proof.
  rewrite list_elem_of_fmap, elem_of_dom. split.
  - intros ([k' b] & -> & Hin). apply elem_of_map_to_list in Hin. by exists b.
  - intros [b Hb]. exists (k, b). split; [done|]. by apply elem_of_map_to_list.
Qed.

Lemma backing_new_cell h r :
  backing (Heap (arrays h) (cells h ++ [r]))
          (mkList (Some (length (cells h))) (len r)) = Some r.
Proof.
  unfold backing; cbn [List_value cells].
  by rewrite lookup_app_r, Nat.sub_diag by lia.
Qed.

Lemma Sub_spec h d d2 :
  live h d -> live h d2 ->
  (forall l, range_order l ≡ₚ l) ->
  exists r h', Sub d d2 h = Ok r h' /\ live h' r /\
    NoDup (contents h' r) /\
    (forall x, x ∈ contents h' r ↔ x ∈ contents h d \/ x ∈ contents h d2) /\
    List_length r = Z.of_nat (length (contents h' r)) /\
    (exists ks, NoDup ks /\ contents h' r = range_order ks).
Proof.
  intros (s1 & Hs1 & Hb1) (s2 & Hs2 & Hb2) Hperm.
  rewrite (contents_backing _ _ _ Hs1), (contents_backing _ _ _ Hs2).
  unfold Sub. unfold bind at 1. rewrite (load_backing _ _ _ Hs1).
  unfold bind at 1. rewrite (load_backing _ _ _ Hs2).
  unfold bind at 1, elems at 1.
  destruct (append_spec h s1 (view h s2) Hb1) as (dv & h1 & Happ & Hv & _ & Hbv & _).
  unfold bind at 1. rewrite Happ.
  destruct (Sub_mark_spec h1 dv (s_len dv) 0 ∅ Hbv) as (m & Hmark & Hdom); [lia|].
  unfold bind at 1. rewrite Hmark.
  rewrite drop_0, dom_empty_L, Hv in Hdom.
  set (ks := range_order (map_to_list m).*1).
  unfold bind at 1, make0, bind at 1, new_array, ret at 1.
  set (h2 := Heap (arrays h1 ++ [replicate (s_len s1 + s_len s2) ""]) (cells h1)).
  set (d3 := Slice (length (arrays h1)) 0 0 (s_len s1 + s_len s2)).
  assert (Hb3 : inb h2 d3).
  { unfold inb, d3, h2; cbn [s_arr s_off s_len s_cap].
    rewrite array_at_snoc, decide_True by done.
    rewrite length_replicate. lia. }
  destruct (Sub_collect_spec ks h2 d3 Hb3) as (r & h3 & Hcoll & Hvr & Hbr & _).
  change (view h2 d3) with (@nil string) in Hvr. rewrite app_nil_l in Hvr.
  unfold bind at 1. fold h2 d3. rewrite Hcoll.
  unfold bind at 1, new_cell, ret.
  set (h4 := Heap (arrays h3) (cells h3 ++ [r])).
  exists (mkList (Some (length (cells h3))) (len r)), h4.
  split; [reflexivity|].
  pose proof (backing_new_cell h3 r) as Hback. fold h4 in Hback.
  assert (Hview : view h4 r = ks) by (by rewrite <- Hvr).
  split; [exists r; split; [done|by eapply inb_arrays]|].
  rewrite (contents_backing _ _ _ Hback), Hview.
  split; [|split; [|split]].
  - unfold ks. rewrite Hperm. apply NoDup_fst_map_to_list.
  - intros x. unfold ks. rewrite Hperm, keys_of_map, Hdom. (drop_unused; set_solver).
  - cbn [List_length]. unfold len.
    by rewrite <- Hvr, (view_length _ _ Hbr).
  - exists (map_to_list m).*1. split; [apply NoDup_fst_map_to_list|done].
Qed.


(** ** [Min] and [Max] *)

Lemma sort_Ints_perm l : sort_Ints l ≡ₚ l.
Proof. apply merge_sort_Permutation. Qed.

Lemma sort_Ints_sorted l : StronglySorted Z.le (sort_Ints l).
Proof. apply StronglySorted_merge_sort; apply _. Qed.

Lemma index_int_first x l h : index_int (x :: l) 0 h = Ok x h.
Proof. unfold index_int. rewrite bool_decide_eq_true_2; [done|simpl; lia]. Qed.

Lemma index_int_last l x h :
  index_int (l ++ [x]) (Z.of_nat (length (l ++ [x])) - 1) h = Ok x h.
Proof.
  unfold index_int. rewrite length_app; cbn [length].
  rewrite bool_decide_eq_true_2 by lia.
  replace (Z.to_nat (Z.of_nat (length l + 1) - 1)) with (length l) by lia.
  by rewrite lookup_app_r, Nat.sub_diag by lia.
Qed.

Lemma index_int_empty i h : index_int [] i h = Panic OutOfRange.
Proof. unfold index_int. rewrite bool_decide_eq_false_2; [done|simpl; lia]. Qed.

Lemma ToIntSlice_all l :
  forallb int_text l = true -> ToIntSlice l = map ToInt l.
Proof. intros H. unfold ToIntSlice. by rewrite H. Qed.

Lemma ToIntSlice_gives_up l :
  forallb int_text l = false -> ToIntSlice l = [].
Proof. intros H. unfold ToIntSlice. by rewrite H. Qed.

Lemma Min_spec h d :
  live h d -> contents h d ≠ [] ->
  forallb int_text (contents h d) = true ->
  exists lo, Min d h = Ok lo h /\ lo ∈ map ToInt (contents h d) /\
             Forall (Z.le lo) (map ToInt (contents h d)).
Proof.
  intros (s & Hs & Hb) Hne Hall. rewrite (contents_backing _ _ _ Hs) in *.
  unfold Min, bind, elems. rewrite (load_backing _ _ _ Hs).
  rewrite (ToIntSlice_all _ Hall).
  pose proof (sort_Ints_perm (map ToInt (view h s))) as Hp.
  pose proof (sort_Ints_sorted (map ToInt (view h s))) as Hsorted.
  destruct (sort_Ints (map ToInt (view h s))) as [|lo tl] eqn:E.
  - apply Permutation_nil_l in Hp.
    by destruct (view h s).
  - exists lo. rewrite index_int_first. split; [done|].
    rewrite <- Hp. split; [left|].
    apply StronglySorted_cons in Hsorted as [Hle _].
    constructor; [lia|done].
Qed.

Lemma Max_spec h d :
  live h d -> contents h d ≠ [] ->
  forallb int_text (contents h d) = true ->
  exists hi, Max d h = Ok hi h /\ hi ∈ map ToInt (contents h d) /\
             Forall (fun x => (x <= hi)%Z) (map ToInt (contents h d)).
Proof.
  intros (s & Hs & Hb) Hne Hall. rewrite (contents_backing _ _ _ Hs) in *.
  unfold Max, bind, elems. rewrite (load_backing _ _ _ Hs).
  rewrite (ToIntSlice_all _ Hall).
  pose proof (sort_Ints_perm (map ToInt (view h s))) as Hp.
  pose proof (sort_Ints_sorted (map ToInt (view h s))) as Hsorted.
  destruct (sort_Ints (map ToInt (view h s))) as [|hi init _] using rev_ind.
  - apply Permutation_nil_l in Hp.
    by destruct (view h s).
  - exists hi. rewrite index_int_last. split; [done|].
    rewrite <- Hp. split; [drop_unused; set_solver|].
    apply Forall_app. split.
    + apply Forall_forall. intros x Hx.
      eapply (StronglySorted_app_1_elem_of Z.le); [done..|drop_unused; set_solver].
    + constructor; [lia|done].
Qed.

(** With nothing to index, [d3[0]] and [d3[len(d3)-1]] are out of range. *)
Lemma Min_Max_empty h d :
  live h d -> ToIntSlice (contents h d) = [] ->
  Min d h = Panic OutOfRange /\ Max d h = Panic OutOfRange.
Proof.
  intros (s & Hs & Hb) He. rewrite (contents_backing _ _ _ Hs) in *.
  unfold Min, Max, bind, elems. rewrite (load_backing _ _ _ Hs), He.
  done.
Qed.

(** ** Constructors and [Copy] *)

Lemma fresh_slice_spec xs h :
  exists s h', fresh_slice xs h = Ok s h' /\ cells h' = cells h /\
               inb h' s /\ view h' s = xs /\ s_len s = length xs.
Proof.
  unfold fresh_slice, bind, new_array, ret.
  eexists _, _. split; [reflexivity|]. split; [done|].
  unfold inb, view; cbn [s_arr s_off s_len s_cap].
  rewrite array_at_snoc, decide_True by done.
  rewrite length_app, length_replicate, drop_0.
  split_and!; [lia|lia| |done].
  by rewrite take_app_length.
Qed.

Lemma NewList_spec va h :
  exists d h', NewList va h = Ok d h' /\ live h' d /\
               contents h' d = ToStringSlice va /\
               List_length d = Z.of_nat (length (ToStringSlice va)).
Proof.
  destruct (fresh_slice_spec (ToStringSlice va) h) as (s & h1 & Hrun & Hc & Hb & Hv & Hl).
  unfold NewList, bind. rewrite Hrun. unfold new_cell, ret.
  set (h2 := Heap (arrays h1) (cells h1 ++ [s])).
  exists (mkList (Some (length (cells h1))) (len s)), h2.
  pose proof (backing_new_cell h1 s) as Hback. fold h2 in Hback.
  split; [done|]. split; [exists s; split; [done|by eapply inb_arrays]|].
  rewrite (contents_backing _ _ _ Hback). split; [done|].
  cbn [List_length]. unfold len. by rewrite Hl.
Qed.

Lemma New_spec v n h :
  exists d h', New v n h = Ok d h' /\ live h' d /\
               contents h' d = [FormatInt64 v] /\ List_length d = n.
Proof.
  destruct (fresh_slice_spec [FormatInt64 v] h) as (s & h1 & Hrun & Hc & Hb & Hv & Hl).
  unfold New, NewStrSlice, bind. rewrite Hrun. unfold new_cell, ret.
  set (h2 := Heap (arrays h1) (cells h1 ++ [s])).
  exists (mkList (Some (length (cells h1))) n), h2.
  split; [done|].
  assert (Hback : backing h2 (mkList (Some (length (cells h1))) n) = Some s).
  { unfold backing, h2; cbn [List_value cells].
    by rewrite lookup_app_r, Nat.sub_diag by lia. }
  split; [exists s; split; [done|by eapply inb_arrays]|].
  by rewrite (contents_backing _ _ _ Hback).
Qed.

(** Allocating a new array and a new slice variable leaves the lists of the
    old store as they are. *)
Lemma alloc_frame h arr c d :
  live h d ->
  live (Heap (arrays h ++ [arr]) (cells h ++ [c])) d /\
  contents (Heap (arrays h ++ [arr]) (cells h ++ [c])) d = contents h d.
Proof.
  intros (s & Hs & Hb). pose proof Hb as [Hb1 Hb2].
  set (h' := Heap (arrays h ++ [arr]) (cells h ++ [c])).
  assert (Hs' : backing h' d = Some s).
  { unfold backing in *. destruct (List_value d) as [p|]; [|done].
    by apply lookup_app_l_Some. }
  assert (Harr : s_arr s < length (arrays h) \/ s_len s = 0).
  { destruct (decide (s_arr s < length (arrays h))); [by left|right].
    unfold array_at in Hb2.
    rewrite (proj2 (lookup_ge_None _ _)) in Hb2 by lia. simpl in Hb2. lia. }
  assert (Hv : view h' s = view h s).
  { unfold view. destruct Harr as [Hlt | ->]; [|done].
    unfold array_at, h'; cbn [arrays]. by rewrite lookup_app_l. }
  split.
  - exists s. split; [done|]. split; [done|].
    destruct (decide (s_arr s < length (arrays h))) as [Hlt|Hge].
    + unfold array_at, h'; cbn [arrays]. by rewrite lookup_app_l.
    + unfold array_at in Hb2.
      rewrite (proj2 (lookup_ge_None _ _)) in Hb2 by lia. simpl in Hb2. lia.
  - by rewrite (contents_backing _ _ _ Hs), (contents_backing _ _ _ Hs').
Qed.

Lemma New_frame v n h d :
  live h d ->
  exists e h', New v n h = Ok e h' /\ live h' e /\
    contents h' e = [FormatInt64 v] /\ List_length e = n /\
    live h' d /\ contents h' d = contents h d.
Proof.
  intros Hl. destruct (New_spec v n h) as (e & h' & Hrun & Hle & Hce & Hn).
  exists e, h'. split_and!; try done.
  all: revert Hrun; unfold New, NewStrSlice, bind, fresh_slice, bind, new_array,
         new_cell, ret; intros [= <- <-]; by apply alloc_frame.
Qed.

(** The zero value [List{}] has a nil pointer: [ensureInitialized] gives the
    copy a slice variable of its own, and the original stays nil. *)
Lemma Copy_zero_value n h :
  Copy (mkList None n) h =
  Ok (mkList (Some (length (cells h))) n)
     (Heap (arrays h) (cells h ++ [nil_slice])).
Proof. reflexivity. Qed.

(** On an initialised list [Copy] allocates nothing and returns a struct
    with the very same pointer. *)
Lemma Copy_spec h d :
  live h d -> Copy d h = Ok d h.
Proof.
  intros (s & Hs & _). unfold Copy, ensureInitialized, bind, backing in *.
  destruct d as [[p|] n]; [done|done].
Qed.


(** ** The specification's claims *)

(** C2. [Pop(idx)] removes the element at the effective index, where a
    negative [idx] is resolved as cached [length] + [idx] (whatever the true
    size of the backing sequence is); in particular, with a cached length
    equal to the true size, [Pop(-1)] removes the last element. *)
Theorem Pop_removes_at_effective_index h d idx :
  wf h d = true ->
  (0 <= effective_index d idx < Z.of_nat (length (contents h d)))%Z ->
  exists h', Pop d idx h = Ok tt h' /\
    contents h' d =
      take (Z.to_nat (effective_index d idx)) (contents h d) ++
      drop (S (Z.to_nat (effective_index d idx))) (contents h d) /\
    ((idx < 0)%Z -> effective_index d idx = wrap (List_length d + idx)) /\
    (idx = (-1)%Z -> List_length d = Z.of_nat (length (contents h d)) ->
     contents h' d = removelast (contents h d)).
Proof.
  intros Hwf He.
  destruct (Pop_spec h d idx Hwf He) as (h' & Hrun & _ & Hc).
  exists h'. split_and!; [done..| |].
  - intros Hneg. unfold effective_index, int_add.
    by rewrite bool_decide_eq_true_2.
  - intros -> Hlen. rewrite Hc.
    assert (Heff : effective_index d (-1) = (Z.of_nat (length (contents h d)) - 1)%Z).
    { unfold effective_index, int_add. rewrite bool_decide_eq_true_2 by lia.
      rewrite Hlen.
      apply wf_backing in Hwf as (p & s & _ & _ & Hw & Hcs).
      apply wf_slice_inb in Hw as [Hb Hmax].
      rewrite wrap_small; [lia|].
      rewrite Hcs, view_length by done.
      unfold min_int, max_int in *. lia. }
    rewrite Heff in *.
    destruct (contents h d) as [|x l] using rev_ind; [simpl in He; lia|].
    rewrite length_app in *; cbn [length] in *.
    replace (Z.to_nat (Z.of_nat (length l + 1) - 1)) with (length l) by lia.
    rewrite take_app_length, removelast_last.
    rewrite drop_ge by (rewrite length_app; simpl; lia).
    by rewrite app_nil_r.
Qed.

(** C3. None of the mutating operations touches the cached length:
    [Length()] returns the same value before and after [Append], [Extend],
    [Insert], [Pop] and [Remove], while the true size of the backing
    sequence changes. *)
Theorem mutations_keep_cached_length h d v sub idx pidx :
  wf h d = true ->
  Length d h = Ok (List_length d) h /\
  (exists h', Append d v h = Ok tt h' /\
     Length d h' = Ok (List_length d) h' /\
     length (contents h' d) = length (contents h d) + 1) /\
  (exists h', Extend d sub h = Ok tt h' /\
     Length d h' = Ok (List_length d) h' /\
     length (contents h' d) =
       length (contents h d) + length (ToStringSlice sub)) /\
  (idx <= length (contents h d) ->
   exists h', Insert d (Z.of_nat idx) v h = Ok tt h' /\
     Length d h' = Ok (List_length d) h' /\
     length (contents h' d) = length (contents h d) + 1) /\
  ((0 <= effective_index d pidx < Z.of_nat (length (contents h d)))%Z ->
   exists h', Pop d pidx h = Ok tt h' /\
     Length d h' = Ok (List_length d) h' /\
     length (contents h' d) = length (contents h d) - 1) /\
  (exists h', Remove d v h = Ok tt h' /\
     Length d h' = Ok (List_length d) h' /\
     length (contents h' d) =
       if decide (ToString v ∈ contents h d)
       then length (contents h d) - 1 else length (contents h d)).
Proof.
  intros Hwf. pose proof (wf_live _ _ Hwf) as Hl.
  split; [done|]. split_and!.
  - destruct (Append_spec h d v Hl) as (h' & Hrun & _ & Hc).
    exists h'. split_and!; [done..|]. rewrite Hc, length_app. simpl; lia.
  - destruct (Extend_spec h d sub Hl) as (h' & Hrun & _ & Hc).
    exists h'. split_and!; [done..|]. by rewrite Hc, length_app.
  - intros Hidx.
    destruct (Insert_spec h d idx v Hl Hidx) as (h' & Hrun & _ & Hc).
    exists h'. split_and!; [done..|]. rewrite Hc.
    rewrite !length_app, length_take. cbn [length].
    assert (length (clobbered (ToString v) (drop idx (contents h d)))
            = length (contents h d) - idx).
    { rewrite <- (length_drop (contents h d) idx).
      by destruct (drop idx (contents h d)). }
    lia.
  - intros Hp.
    destruct (Pop_spec h d pidx Hwf Hp) as (h' & Hrun & _ & Hc).
    exists h'. split_and!; [done..|]. rewrite Hc.
    rewrite length_app, length_take, length_drop. lia.
  - destruct (decide (ToString v ∈ contents h d)) as [Hin|Hout].
    + destruct (Remove_present h d v Hwf Hin) as (h' & Hrun & _ & Hc).
      by exists h'.
    + exists h. by rewrite (Remove_absent h d v Hl Hout).
Qed.

(** C4. [Copy()] returns an instance with the same cached length and the
    same storage pointer: an [Append] made through the original shows in
    [String()] of the copy, and one made through the copy shows in
    [String()] of the original. *)
Theorem Copy_shares_storage h d v :
  wf h d = true ->
  exists d', Copy d h = Ok d' h /\
    List_value d' = List_value d /\
    List_length d' = List_length d /\
    (exists h' s, Append d v h = Ok tt h' /\ String d' h' = Ok s h' /\
                  view h' s = contents h d ++ [ToString v]) /\
    (exists h' s, Append d' v h = Ok tt h' /\ String d h' = Ok s h' /\
                  view h' s = contents h d ++ [ToString v]).
Proof.
  intros Hwf. pose proof (wf_live _ _ Hwf) as Hl.
  exists d. split; [by apply Copy_spec|]. split; [done|]. split; [done|].
  destruct (Append_spec h d v Hl) as (h' & Hrun & (s & Hs & _) & Hc).
  assert (exists h' s, Append d v h = Ok tt h' /\ String d h' = Ok s h' /\
                       view h' s = contents h d ++ [ToString v]) as Hshow.
  { exists h', s. split; [done|]. split; [by apply load_backing|].
    by rewrite <- Hc, (contents_backing _ _ _ Hs). }
  by split.
Qed.

(** C5. The backing sequence of [A.Sub(B)] has no duplicates and its element
    set is the union of the elements of [A] and of [B]; its order is the
    one in which the runtime visits the keys of the intermediate map,
    whatever that order is. *)
Theorem Sub_is_deduplicated_union h d d2 :
  wf h d = true -> wf h d2 = true ->
  (forall l, range_order l ≡ₚ l) ->
  exists r h', Sub d d2 h = Ok r h' /\
    NoDup (contents h' r) /\
    (forall x, x ∈ contents h' r ↔ x ∈ contents h d \/ x ∈ contents h d2) /\
    (exists ks, NoDup ks /\ contents h' r = range_order ks).
Proof.
  intros Hw1 Hw2 Hperm.
  destruct (Sub_spec h d d2 (wf_live _ _ Hw1) (wf_live _ _ Hw2) Hperm)
    as (r & h' & Hrun & _ & Hnd & Hset & _ & Hord).
  by exists r, h'.
Qed.


(** C6. What [Insert] does at a position that holds an element: the new
    string is written twice, over the element that was there, instead of
    being inserted before it. *)
Theorem Insert_overwrites_element_at_index h d idx v x :
  wf h d = true ->
  contents h d !! idx = Some x ->
  exists h', Insert d (Z.of_nat idx) v h = Ok tt h' /\
    contents h' d =
      take idx (contents h d) ++ [ToString v; ToString v] ++
      drop (S idx) (contents h d).
Proof.
  intros Hwf Hx. pose proof (lookup_lt_Some _ _ _ Hx) as Hlt.
  destruct (Insert_spec h d idx v (wf_live _ _ Hwf)) as (h' & Hrun & _ & Hc);
    [lia|].
  exists h'. split; [done|]. rewrite Hc.
  by rewrite (drop_S _ _ _ Hx).
Qed.

(** C7, as amended. After [Append(v)], [Index(v)] returns the position of the
    first element with the text of [v]; that is the last position (new true
    size minus one) exactly when the list did not hold that text before. *)
Theorem Index_after_Append_first_match h d v :
  wf h d = true ->
  exists h' i, Append d v h = Ok tt h' /\
    Index d v h' = Ok (Z.of_nat i) h' /\
    contents h' d !! i = Some (ToString v) /\
    (forall j, j < i -> contents h' d !! j ≠ Some (ToString v)) /\
    (ToString v ∉ contents h d ↔
     Z.of_nat i = (Z.of_nat (length (contents h' d)) - 1)%Z).
Proof.
  intros Hwf.
  destruct (Append_spec h d v (wf_live _ _ Hwf)) as (h' & Hrun & Hl' & Hc).
  pose proof (Index_spec h' d v Hl') as Hidx.
  destruct (list_find (λ x, x = ToString v) (contents h' d)) as [[i y]|] eqn:Hf.
  - apply list_find_Some in Hf as (Hi & -> & Hfirst).
    exists h', i. split_and!; [done..| |].
    + intros j Hj Hl. by apply (Hfirst j (ToString v)).
    + rewrite Hc in *. rewrite length_app; cbn [length]. split.
      * intros Hout. destruct (decide (i < length (contents h d))) as [Hlt|Hge].
        -- rewrite lookup_app_l in Hi by done.
           exfalso. apply Hout. by eapply list_elem_of_lookup_2.
        -- apply lookup_lt_Some in Hi. rewrite length_app in Hi; simpl in Hi. lia.
      * intros Hlast Hin. apply list_elem_of_lookup_1 in Hin as [j Hj].
        pose proof (lookup_lt_Some _ _ _ Hj) as Hjl.
        apply (Hfirst j (ToString v)); [|lia|done].
        by rewrite lookup_app_l.
  - apply list_find_None in Hf. rewrite Hc in Hf.
    apply Forall_app in Hf as [_ Hf]. by inversion Hf.
Qed.

(** C8. [Equal] is reflexive and symmetric and tells apart lists that differ
    in order or in length: [[a,b]] against [[b,a]] is false for [a ≠ b],
    [[a,b]] against [[a,b]] is true, [[a]] against [[a,a]] is false. *)
Theorem Equal_reflexive_symmetric_order_length h d d2 :
  wf h d = true -> wf h d2 = true ->
  Equal d d h = Ok true h /\
  Equal d d2 h = Equal d2 d h /\
  (forall a b, a ≠ b -> contents h d = [a; b] -> contents h d2 = [b; a] ->
     Equal d d2 h = Ok false h) /\
  (forall a b, contents h d = [a; b] -> contents h d2 = [a; b] ->
     Equal d d2 h = Ok true h) /\
  (forall a, contents h d = [a] -> contents h d2 = [a; a] ->
     Equal d d2 h = Ok false h).
Proof.
  intros Hw1 Hw2.
  pose proof (wf_live _ _ Hw1) as Hl1. pose proof (wf_live _ _ Hw2) as Hl2.
  rewrite !Equal_spec by done. split_and!.
  - by rewrite bool_decide_eq_true_2.
  - f_equal. apply bool_decide_ext. split; congruence.
  - intros a b Hne -> ->. rewrite bool_decide_eq_false_2; [done|congruence].
  - intros a b -> ->. by rewrite bool_decide_eq_true_2.
  - intros a -> ->. by rewrite bool_decide_eq_false_2.
Qed.

(** C9, as amended. On a non-empty backing sequence whose elements are all
    texts of integers, [Min()] returns the smallest and [Max()] the largest
    of the elements' integer coercions, e.g. 1 and 3 on ["3","1","2"]; on
    an empty sequence, and on one that holds an element that is not the
    text of an integer, both panic with an index out of range. *)
Theorem Min_Max_of_integer_coercions h d :
  wf h d = true ->
  (contents h d ≠ [] -> forallb int_text (contents h d) = true ->
   exists lo hi, Min d h = Ok lo h /\ Max d h = Ok hi h /\
     lo ∈ map ToInt (contents h d) /\ hi ∈ map ToInt (contents h d) /\
     Forall (fun x => (lo <= x <= hi)%Z) (map ToInt (contents h d))) /\
  (contents h d = [] \/ forallb int_text (contents h d) = false ->
   Min d h = Panic OutOfRange /\ Max d h = Panic OutOfRange) /\
  (contents h d = ["3"; "1"; "2"] ->
   int_text "3" = true -> int_text "1" = true -> int_text "2" = true ->
   ToInt "3" = 3%Z -> ToInt "1" = 1%Z -> ToInt "2" = 2%Z ->
   Min d h = Ok 1%Z h /\ Max d h = Ok 3%Z h).
Proof.
  intros Hwf. pose proof (wf_live _ _ Hwf) as Hl.
  assert (Hgen : contents h d ≠ [] -> forallb int_text (contents h d) = true ->
   exists lo hi, Min d h = Ok lo h /\ Max d h = Ok hi h /\
     lo ∈ map ToInt (contents h d) /\ hi ∈ map ToInt (contents h d) /\
     Forall (fun x => (lo <= x <= hi)%Z) (map ToInt (contents h d))).
  { intros Hne Hall.
    destruct (Min_spec h d Hl Hne Hall) as (lo & Hmin & Hlo & Hall1).
    destruct (Max_spec h d Hl Hne Hall) as (hi & Hmax & Hhi & Hall2).
    exists lo, hi. split_and!; [done..|].
    rewrite Forall_forall in *. intros x Hx. split; [by apply Hall1|by apply Hall2]. }
  split_and!; [done| |].
  - intros [He|Hbad]; apply Min_Max_empty; try done.
    + by rewrite He.
    + by apply ToIntSlice_gives_up.
  - intros Hc Hi3 Hi1 Hi2 H3 H1 H2.
    destruct Hgen as (lo & hi & -> & -> & Hlo & Hhi & Hall); [by rewrite Hc| |].
    { rewrite Hc. cbn [forallb]. by rewrite Hi3, Hi1, Hi2. }
    rewrite Hc in *. cbn [map] in *.
    rewrite H3, H1, H2 in *.
    apply Forall_cons in Hall as [Ha3 Hall].
    apply Forall_cons in Hall as [Ha1 Hall].
    apply Forall_cons in Hall as [Ha2 _].
    assert (lo = 1%Z) as -> by (drop_unused; set_solver by lia).
    assert (hi = 3%Z) as -> by (drop_unused; set_solver by lia).
    done.
Qed.

(** C10. [Equal] looks at the backing sequences only: whatever the two
    cached lengths are, it returns true when the sequences are element-wise
    equal and false when they are not, e.g. for a list built by [New] with
    an arbitrary length. *)
Theorem Equal_ignores_cached_length h d d2 :
  wf h d = true -> wf h d2 = true ->
  Equal d d2 h = Ok (bool_decide (contents h d = contents h d2)) h /\
  (forall n m, Equal (mkList (List_value d) n) (mkList (List_value d2) m) h
               = Ok (bool_decide (contents h d = contents h d2)) h) /\
  (forall v n, exists e h',
     New v n h = Ok e h' /\ Length e h' = Ok n h' /\
     Equal e d h' = Ok (bool_decide ([FormatInt64 v] = contents h d)) h').
Proof.
  intros Hw1 Hw2.
  pose proof (wf_live _ _ Hw1) as Hl1. pose proof (wf_live _ _ Hw2) as Hl2.
  split_and!.
  - by rewrite Equal_spec.
  - intros n m.
    assert (Hl1' : live h (mkList (List_value d) n)) by exact Hl1.
    assert (Hl2' : live h (mkList (List_value d2) m)) by exact Hl2.
    by rewrite Equal_spec.
  - intros v n.
    destruct (New_frame v n h d Hl1) as (e & h' & Hrun & Hle & Hce & Hn & Hld & Hcd).
    exists e, h'. split; [done|]. split; [unfold Length, ret; by rewrite Hn|].
    rewrite Equal_spec by done. by rewrite Hce, Hcd.
Qed.


(** ** What [append] leaves alone *)

(** [append] touches one array only: the one under its first argument, and
    there only positions from [len] on; or it allocates a new array. *)
Lemma append_cases h s xs r h' :
  inb h s -> append spare s xs h = Ok r h' ->
  cells h' = cells h /\
  ((h' = h /\ r = s) \/
   (exists arr, arrays h !! s_arr s = Some arr /\
      s_off s + s_len s + length xs <= length arr /\
      s_arr r = s_arr s /\
      arrays h' = <[s_arr s := write_at arr (s_off s + s_len s) xs]> (arrays h)) \/
   (s_arr r = length (arrays h) /\ exists arr, arrays h' = arrays h ++ [arr])).
Proof.
  intros [H1 H2]. unfold append.
  destruct (bool_decide (s_len s + length xs <= s_cap s)) eqn:Hfit.
  - apply bool_decide_eq_true in Hfit. destruct xs as [|x xs'].
    + intros [= <- <-]. split; [done|]. by left.
    + destruct (arrays h !! s_arr s) as [arr|] eqn:Ea; [|done].
      intros [= <- <-]. split; [done|]. right; left. exists arr.
      assert (array_at h (s_arr s) = arr) as Harr
        by (unfold array_at; by rewrite Ea).
      rewrite Harr in H2. split_and!; [done|lia|done|done].
  - intros [= <- <-]. split; [done|]. right; right. split; [done|]. by eexists.
Qed.

Lemma append_array_count h s xs r h' :
  inb h s -> append spare s xs h = Ok r h' ->
  length (arrays h) <= length (arrays h').
Proof.
  intros Hb Happ.
  destruct (append_cases h s xs r h' Hb Happ)
    as (_ & [[-> _] | [(arr & _ & _ & _ & ->) | (_ & arr & ->)]]).
  - done.
  - by rewrite length_insert.
  - rewrite length_app. lia.
Qed.

(** Arrays other than the one appended to stay as they are. *)
Lemma append_other_array h s xs r h' a :
  inb h s -> append spare s xs h = Ok r h' ->
  a ≠ s_arr s -> a < length (arrays h) ->
  arrays h' !! a = arrays h !! a.
Proof.
  intros Hb Happ Hne Hlt.
  destruct (append_cases h s xs r h' Hb Happ)
    as (_ & [[-> _] | [(arr & _ & _ & _ & ->) | (_ & arr & ->)]]).
  - done.
  - by rewrite list_lookup_insert_ne.
  - by rewrite lookup_app_l.
Qed.

(** The header appended to still shows the same elements afterwards. *)
Lemma append_keeps_view h s xs r h' :
  inb h s -> append spare s xs h = Ok r h' -> view h' s = view h s.
Proof.
  intros Hb Happ. pose proof Hb as [Hb1 Hb2].
  destruct (append_cases h s xs r h' Hb Happ)
    as (_ & [[-> _] | [(arr & Ea & Hfit & _ & Ha) | (_ & arr & Ha)]]).
  - done.
  - assert (Hlt : s_arr s < length (arrays h)) by (eapply lookup_lt_Some; eauto).
    unfold view, array_at. rewrite Ha, Ea, list_lookup_insert_eq by done.
    cbn [from_option]. unfold id, write_at.
    rewrite drop_app_le by (rewrite length_take; lia).
    rewrite take_app_le by (rewrite length_drop, length_take; lia).
    rewrite <- take_drop_commute, take_take. f_equal. lia.
  - unfold view, array_at. rewrite Ha.
    destruct (decide (s_arr s < length (arrays h))) as [Hlt|Hge].
    + by rewrite lookup_app_l.
    + unfold array_at in Hb2.
      rewrite (proj2 (lookup_ge_None _ _)) in Hb2 by lia.
      simpl in Hb2. replace (s_len s) with 0 by lia. done.
Qed.

(** A header over another array still shows the same elements afterwards. *)
Lemma append_other_view h s xs r h' s' :
  inb h s -> append spare s xs h = Ok r h' ->
  inb h s' -> s_arr s' ≠ s_arr s -> view h' s' = view h s'.
Proof.
  intros Hb Happ [Hb1 Hb2] Hne.
  destruct (decide (s_arr s' < length (arrays h))) as [Hlt|Hge].
  - unfold view, array_at.
    by rewrite (append_other_array h s xs r h' (s_arr s') Hb Happ).
  - unfold array_at in Hb2.
    rewrite (proj2 (lookup_ge_None _ _)) in Hb2 by lia.
    simpl in Hb2. unfold view. replace (s_len s') with 0 by lia. done.
Qed.


(** ** Machine integers *)

Lemma wrap_range z : (min_int <= wrap z <= max_int)%Z.
Proof.
  unfold wrap, min_int, max_int.
  pose proof (Z.mod_pos_bound (z + 2 ^ 63) (2 ^ 64)). lia.
Qed.

Lemma wrap_add_l a b : wrap (wrap a + b) = wrap (a + b).
Proof.
  unfold wrap. f_equal.
  replace ((a + 2 ^ 63) `mod` 2 ^ 64 - 2 ^ 63 + b + 2 ^ 63)%Z
    with ((a + 2 ^ 63) `mod` 2 ^ 64 + b)%Z by lia.
  rewrite Zplus_mod_idemp_l. f_equal. lia.
Qed.

Lemma wrap_add_r a b : wrap (a + wrap b) = wrap (a + b).
Proof. rewrite (Z.add_comm a), wrap_add_l. f_equal. lia. Qed.

Lemma wrap_idem z : wrap (wrap z) = wrap z.
Proof. apply wrap_small, wrap_range. Qed.

Lemma live_wf h d :
  live h d -> (Z.of_nat (length (contents h d)) <= max_int)%Z -> wf h d = true.
Proof.
  intros (s & Hs & Hb) Hmax. unfold wf. rewrite Hs.
  rewrite (contents_backing _ _ _ Hs), view_length in Hmax by done.
  destruct Hb as [H1 H2]. unfold wf_slice.
  by rewrite !bool_decide_eq_true_2.
Qed.

(** ** [Add] *)

Lemma backing_snoc h arrs c e se :
  backing h e = Some se ->
  backing (Heap arrs (cells h ++ [c])) e = Some se.
Proof.
  unfold backing. destruct (List_value e) as [p|]; [|done].
  cbn [cells]. apply lookup_app_l_Some.
Qed.

Lemma Add_run h d d2 s s2 :
  backing h d = Some s -> inb h s ->
  backing h d2 = Some s2 -> inb h s2 ->
  exists r h' sr,
    Add d d2 h = Ok r h' /\
    backing h' r = Some sr /\ inb h' sr /\
    view h' sr = view h s ++ view h s2 /\
    List_length r = int_add (List_length d) (List_length d2) /\
    (forall e se, backing h e = Some se -> backing h' e = Some se) /\
    (forall se, inb h se -> inb h' se) /\
    view h' s = view h s /\
    (forall se, inb h se -> s_arr se ≠ s_arr s -> view h' se = view h se).
Proof.
  intros Hs Hb Hs2 Hb2.
  destruct (append_spec h s (view h s2) Hb) as (sr & h1 & Happ & Hv & Hext & Hbr & _).
  unfold Add. unfold bind at 1. rewrite (load_backing _ _ _ Hs).
  unfold bind at 1. rewrite (load_backing _ _ _ Hs2).
  unfold bind at 1, elems at 1. unfold bind at 1. rewrite Happ.
  unfold bind, new_cell, ret.
  set (h' := Heap (arrays h1) (cells h1 ++ [sr])).
  exists (mkList (Some (length (cells h1))) (int_add (List_length d) (List_length d2))),
         h', sr.
  assert (Ha : arrays h' = arrays h1) by done.
  split; [done|]. split_and!.
  - unfold backing, h'; cbn [List_value cells].
    by rewrite lookup_app_r, Nat.sub_diag by lia.
  - exact (inb_arrays h1 h' sr Ha Hbr).
  - by rewrite (view_arrays _ _ _ Ha).
  - done.
  - intros e se He. apply backing_snoc. unfold backing in *.
    destruct (List_value e); [|done]. by rewrite (proj1 Hext).
  - intros se Hse. apply (inb_arrays h1 h' se Ha).
    exact (extends_inb h h1 se Hext Hse).
  - rewrite (view_arrays _ _ _ Ha).
    exact (append_keeps_view h s (view h s2) sr h1 Hb Happ).
  - intros se Hse Hne. rewrite (view_arrays _ _ _ Ha).
    exact (append_other_view h s (view h s2) sr h1 se Hb Happ Hse Hne).
Qed.

(** X1. [Add] returns a new list holding the receiver's elements followed by
    the argument's; its cached length is the 64-bit sum of the two cached
    lengths (not the true size), and the receiver shows the same elements
    as before. *)
Theorem Add_concatenates h d d2 :
  wf h d = true -> wf h d2 = true ->
  exists r h',
    Add d d2 h = Ok r h' /\
    contents h' r = contents h d ++ contents h d2 /\
    Length r h' = Ok (wrap (List_length d + List_length d2)) h' /\
    contents h' d = contents h d.
Proof.
  intros (s & Hs & Hb)%wf_live (s2 & Hs2 & Hb2)%wf_live.
  destruct (Add_run h d d2 s s2 Hs Hb Hs2 Hb2)
    as (r & h' & sr & Hrun & Hsr & Hbr & Hv & Hlen & Hkeep & _ & Hvs & _).
  exists r, h'. split_and!; [done| | |].
  - by rewrite (contents_backing _ _ _ Hsr), (contents_backing _ _ _ Hs),
      (contents_backing _ _ _ Hs2).
  - unfold Length, ret. by rewrite Hlen.
  - by rewrite (contents_backing _ _ _ (Hkeep _ _ Hs)), (contents_backing _ _ _ Hs).
Qed.

(** ** [Sum] *)

Lemma Sum_loop_spec h s n : forall i total,
  inb h s -> i + n = s_len s ->
  Sum_loop s i n total h
  = Ok (match n with
        | O => total
        | S _ => wrap (total + total_of (drop i (view h s)))
        end) h.
Proof.
  induction n as [|n IH]; intros i total Hb Hi; [done|].
  destruct (index_view h s i Hb) as (x & Hx & Hidx); [lia|].
  cbn [Sum_loop]. unfold bind at 1. rewrite Hidx.
  rewrite IH by (done || lia). rewrite (drop_S _ _ _ Hx).
  unfold total_of at 2. cbn [map foldr]. fold (total_of (drop (S i) (view h s))).
  destruct n as [|n'].
  - rewrite drop_ge by (rewrite view_length by done; lia).
    unfold total_of, int_add; cbn [map foldr]. by rewrite Z.add_0_r.
  - unfold int_add. by rewrite wrap_add_l, Z.add_assoc.
Qed.

Lemma Sum_spec h d :
  live h d -> Sum d h = Ok (wrap (total_of (contents h d))) h.
Proof.
  intros (s & Hs & Hb). unfold Sum, bind. rewrite (load_backing _ _ _ Hs).
  rewrite (Sum_loop_spec h s (s_len s) 0 0 Hb) by lia.
  rewrite drop_0, (contents_backing _ _ _ Hs).
  destruct (s_len s) eqn:E; [|done].
  unfold view. rewrite E. done.
Qed.


Lemma total_of_app l1 l2 : total_of (l1 ++ l2) = (total_of l1 + total_of l2)%Z.
Proof.
  unfold total_of. induction l1 as [|x l1 IH]; cbn [app map foldr]; [done|].
  rewrite IH. lia.
Qed.

(** X2. [Sum] never fails on an initialised list and returns the exact total
    of the elements' integer coercions reduced to a signed 64-bit integer:
    0 on an empty list, the exact total whenever that fits in an [int]. *)
Theorem Sum_is_wrapped_total h d :
  wf h d = true ->
  Sum d h = Ok (wrap (total_of (contents h d))) h /\
  (contents h d = [] -> Sum d h = Ok 0%Z h) /\
  ((min_int <= total_of (contents h d) <= max_int)%Z ->
   Sum d h = Ok (total_of (contents h d)) h).
Proof.
  intros Hl%wf_live. rewrite (Sum_spec h d Hl). split_and!; [done| |].
  - by intros ->.
  - intros Hr. by rewrite wrap_small.
Qed.

(** X3. [Sum] of [A.Add(B)] is the 64-bit sum of [Sum] of [A] and [Sum] of
    [B]. *)
Theorem Sum_of_Add h d d2 :
  wf h d = true -> wf h d2 = true ->
  exists r h' a b,
    Add d d2 h = Ok r h' /\
    Sum d h = Ok a h /\ Sum d2 h = Ok b h /\
    Sum r h' = Ok (int_add a b) h'.
Proof.
  intros (s & Hs & Hb)%wf_live (s2 & Hs2 & Hb2)%wf_live.
  destruct (Add_run h d d2 s s2 Hs Hb Hs2 Hb2)
    as (r & h' & sr & Hrun & Hsr & Hbr & Hv & _).
  exists r, h', (wrap (total_of (contents h d))), (wrap (total_of (contents h d2))).
  split; [done|].
  rewrite (Sum_spec h d), (Sum_spec h d2), (Sum_spec h' r) by (eexists; eauto).
  split; [done|]. split; [done|]. f_equal.
  rewrite (contents_backing _ _ _ Hsr), Hv, total_of_app.
  rewrite (contents_backing _ _ _ Hs), (contents_backing _ _ _ Hs2).
  unfold int_add. by rewrite wrap_add_l, wrap_add_r.
Qed.

(** ** [Count], [In] and [Index] *)

Lemma Count_loop_spec h s str n : forall i count,
  inb h s -> i + n = s_len s ->
  (0 <= count)%Z -> (count + Z.of_nat n <= max_int)%Z ->
  Count_loop s str i n count h
  = Ok (count + Z.of_nat (length (filter (fun x => x = str) (drop i (view h s)))))%Z h.
Proof.
  induction n as [|n IH]; intros i count Hb Hi H0 Hmax.
  - rewrite drop_ge by (rewrite view_length by done; lia).
    cbn. unfold ret. f_equal. lia.
  - destruct (index_view h s i Hb) as (x & Hx & Hidx); [lia|].
    cbn [Count_loop]. unfold bind at 1. rewrite Hidx.
    rewrite (drop_S _ _ _ Hx).
    destruct (decide (x = str)) as [->|Hne].
    + rewrite bool_decide_eq_true_2 by done.
      rewrite filter_cons_True by done. cbn [length].
      unfold int_add. rewrite wrap_small by (unfold min_int, max_int in *; lia).
      rewrite IH by (done || lia). f_equal. lia.
    + rewrite bool_decide_eq_false_2 by done.
      rewrite filter_cons_False by done.
      rewrite IH by (done || lia). done.
Qed.

(** X4. [Count] returns the number of elements whose text equals the text of
    the value, and never fails on an initialised list. *)
Theorem Count_counts_occurrences h d v :
  wf h d = true ->
  Count d v h
  = Ok (Z.of_nat (length (filter (fun x => x = ToString v) (contents h d)))) h.
Proof.
  intros (p & s & Hp & Hc & Hw & Hcont)%wf_backing.
  apply wf_slice_inb in Hw as [Hb Hmax].
  assert (Hs : backing h d = Some s) by (unfold backing; by rewrite Hp).
  unfold Count, bind. rewrite (load_backing _ _ _ Hs).
  rewrite (Count_loop_spec h s (ToString v) (s_len s) 0 0 Hb) by lia.
  by rewrite drop_0, Hcont.
Qed.

Lemma In_spec h d v :
  live h d ->
  In d v h = Ok (bool_decide (ToString v ∈ contents h d)) h.
Proof.
  intros (s & Hs & Hb). unfold In, inI, bind.
  rewrite (load_backing _ _ _ Hs).
  rewrite (inI_loop_spec h s (ToString v) (s_len s) 0 Hb) by lia.
  rewrite drop_0, (contents_backing _ _ _ Hs).
  destruct (list_find _ (view h s)) as [[j y]|] eqn:Hf; cbn [snd ret].
  - apply list_find_Some in Hf as (Hj & -> & _).
    rewrite bool_decide_eq_true_2; [done|]. by eapply list_elem_of_lookup_2.
  - rewrite bool_decide_eq_false_2; [done|]. intros Hin.
    eapply list_find_None in Hf. rewrite Forall_forall in Hf. by eapply Hf.
Qed.

(** X5. [In] and [Index] agree with each other and with membership: [In] is
    true exactly when the text of the value occurs in the list; then
    [Index] is the position of its first occurrence, and otherwise [Index]
    is -1. *)
Theorem In_Index_agree h d v :
  wf h d = true ->
  exists b i,
    In d v h = Ok b h /\ Index d v h = Ok i h /\
    (b = true ↔ ToString v ∈ contents h d) /\
    (b = false ↔ i = (-1)%Z) /\
    (b = true ->
     (0 <= i < Z.of_nat (length (contents h d)))%Z /\
     contents h d !! Z.to_nat i = Some (ToString v) /\
     forall j, j < Z.to_nat i -> contents h d !! j ≠ Some (ToString v)).
Proof.
  intros Hl%wf_live.
  rewrite (In_spec h d v Hl), (Index_spec h d v Hl).
  eexists _, _. split; [done|]. split; [done|].
  destruct (list_find _ (contents h d)) as [[j y]|] eqn:Hf.
  - apply list_find_Some in Hf as (Hj & -> & Hfirst).
    assert (Hin : ToString v ∈ contents h d) by by eapply list_elem_of_lookup_2.
    rewrite bool_decide_eq_true_2 by done. split_and!; [done|split; [done|lia]|].
    intros _. rewrite Nat2Z.id. split_and!.
    + lia.
    + apply lookup_lt_Some in Hj. lia.
    + done.
    + intros k Hk Hl'. by apply (Hfirst k (ToString v)).
  - assert (Hout : ToString v ∉ contents h d).
    { intros Hin. eapply list_find_None in Hf. rewrite Forall_forall in Hf.
      by eapply Hf. }
    rewrite bool_decide_eq_false_2 by done. split_and!; [done|done|done].
Qed.


(** ** Bounds of [Pop] and [Insert] *)

(** X6. [Pop] panics with an out-of-range fault exactly when the effective
    index does not address an element: for an [int] index whose effective
    index lies outside [0 .. size-1], nothing is removed. *)
Theorem Pop_out_of_range_panics h d idx :
  wf h d = true ->
  (min_int <= idx <= max_int)%Z ->
  ~ (0 <= effective_index d idx < Z.of_nat (length (contents h d)))%Z ->
  Pop d idx h = Panic OutOfRange.
Proof.
  intros (p & s & Hp & Hc & Hw & Hcont)%wf_backing Hint Hout.
  apply wf_slice_inb in Hw as [Hb Hmax]. pose proof Hb as [Hb1 Hb2].
  assert (Hs : backing h d = Some s) by (unfold backing; by rewrite Hp).
  rewrite Hcont, view_length in Hout by done.
  unfold Pop, bind at 1. rewrite (load_backing _ _ _ Hs).
  fold (effective_index d idx).
  assert (He : (min_int <= effective_index d idx <= max_int)%Z).
  { unfold effective_index. case_bool_decide; [apply wrap_range|done]. }
  set (e := effective_index d idx) in *.
  unfold slice_to, slice_from, len.
  destruct (decide (0 <= e <= Z.of_nat (s_cap s))%Z) as [Hin|Hno].
  - unfold bind at 1. rewrite reslice_ok by lia.
    unfold bind at 1. rewrite reslice_out_of_range; [done|].
    unfold int_add. destruct (decide (e = max_int)) as [->|Hne].
    + vm_compute. intros [H _]. by apply H.
    + rewrite wrap_small by (unfold min_int, max_int in *; lia). lia.
  - unfold bind at 1. rewrite reslice_out_of_range; [done|lia].
Qed.

(** X7. [Insert] panics with an out-of-range fault for every index outside
    [0 .. size]. *)
Theorem Insert_out_of_range_panics h d idx v :
  wf h d = true ->
  ~ (0 <= idx <= Z.of_nat (length (contents h d)))%Z ->
  Insert d idx v h = Panic OutOfRange.
Proof.
  intros (p & s & Hp & Hc & Hw & Hcont)%wf_backing Hout.
  apply wf_slice_inb in Hw as [Hb Hmax]. pose proof Hb as [Hb1 Hb2].
  assert (Hs : backing h d = Some s) by (unfold backing; by rewrite Hp).
  rewrite Hcont, view_length in Hout by done.
  unfold Insert, bind at 1. rewrite (load_backing _ _ _ Hs).
  unfold slice_to, slice_from, len.
  destruct (decide (0 <= idx <= Z.of_nat (s_cap s))%Z) as [Hin|Hno].
  - unfold bind at 1. rewrite reslice_ok by lia.
    set (a := Slice _ _ _ _).
    assert (Hba : inb h a).
    { unfold inb, a; cbn [s_arr s_off s_len s_cap]. lia. }
    destruct (append_spec h a [ToString v] Hba) as (res & h1 & Happ & _).
    unfold bind at 1. rewrite Happ.
    unfold bind at 1. rewrite reslice_out_of_range; [done|lia].
  - unfold bind at 1. rewrite reslice_out_of_range; [done|lia].
Qed.

(** X8. [Insert] at the position just past the last element behaves like
    [Append]: the list shows its old elements followed by the new one. *)
Theorem Insert_at_end_appends h d v :
  wf h d = true ->
  exists h1 h2,
    Insert d (Z.of_nat (length (contents h d))) v h = Ok tt h1 /\
    Append d v h = Ok tt h2 /\
    contents h1 d = contents h d ++ [ToString v] /\
    contents h2 d = contents h d ++ [ToString v].
Proof.
  intros Hl%wf_live.
  destruct (Insert_spec h d (length (contents h d)) v Hl) as (h1 & Hrun1 & _ & Hc1);
    [done|].
  destruct (Append_spec h d v Hl) as (h2 & Hrun2 & _ & Hc2).
  exists h1, h2. split_and!; [done..| |done].
  rewrite Hc1, take_ge, drop_ge by done. by rewrite app_nil_r.
Qed.

(** X9. [Append] followed by [Pop] of the new last position gives back the
    elements the list had before. *)
Theorem Append_then_Pop_restores h d v :
  wf h d = true ->
  (Z.of_nat (length (contents h d)) < max_int)%Z ->
  exists h1 h2,
    Append d v h = Ok tt h1 /\
    Pop d (Z.of_nat (length (contents h d))) h1 = Ok tt h2 /\
    contents h2 d = contents h d.
Proof.
  intros Hwf Hmax. pose proof (wf_live _ _ Hwf) as Hl.
  destruct (Append_spec h d v Hl) as (h1 & Hrun & Hl1 & Hc1).
  assert (Hlen1 : length (contents h1 d) = length (contents h d) + 1)
    by (rewrite Hc1, length_app; simpl; lia).
  assert (Hwf1 : wf h1 d = true) by (apply live_wf; [done|lia]).
  assert (Heff : effective_index d (Z.of_nat (length (contents h d)))
                 = Z.of_nat (length (contents h d))).
  { unfold effective_index. by rewrite bool_decide_eq_false_2 by lia. }
  destruct (Pop_spec h1 d (Z.of_nat (length (contents h d))) Hwf1)
    as (h2 & Hpop & _ & Hc2); [rewrite Heff; lia|].
  exists h1, h2. split; [done|]. split; [done|].
  rewrite Hc2, Heff, Nat2Z.id, Hc1, take_app_length.
  rewrite drop_ge by (rewrite length_app; simpl; lia).
  by rewrite app_nil_r.
Qed.

(** X10. Growing a list at its end does not move what is already there:
    for a value that is in the list, [Index] returns the same position
    after [Append] and after [Extend] as before. *)
Theorem Index_stable_under_growth h d v w sub :
  wf h d = true ->
  ToString v ∈ contents h d ->
  exists i h1 h2,
    Index d v h = Ok i h /\
    Append d w h = Ok tt h1 /\ Index d v h1 = Ok i h1 /\
    Extend d sub h = Ok tt h2 /\ Index d v h2 = Ok i h2.
Proof.
  intros Hl%wf_live Hin.
  destruct (Append_spec h d w Hl) as (h1 & Hrun1 & Hl1 & Hc1).
  destruct (Extend_spec h d sub Hl) as (h2 & Hrun2 & Hl2 & Hc2).
  rewrite (Index_spec h d v Hl).
  destruct (list_find_elem_of (fun x => x = ToString v) (contents h d)
              (ToString v) Hin eq_refl) as [[j y] Hf].
  eexists _, h1, h2. split; [done|].
  rewrite (Index_spec h1 d v Hl1), (Index_spec h2 d v Hl2), Hc1, Hc2.
  rewrite !(list_find_app_l _ _ _ _ _ Hf), Hf. done.
Qed.

(** ** [Equal], [Sub] and the constructors *)

(** X11. [Equal] (and its deprecated alias [Equals]) never fails on
    initialised lists and returns true exactly when the two lists show the
    same elements in the same order; in particular it is transitive. *)
Theorem Equal_decides_contents h d d2 d3 :
  wf h d = true -> wf h d2 = true -> wf h d3 = true ->
  (exists b, Equal d d2 h = Ok b h /\ Equals d d2 h = Ok b h /\
             (b = true ↔ contents h d = contents h d2)) /\
  (Equal d d2 h = Ok true h -> Equal d2 d3 h = Ok true h ->
   Equal d d3 h = Ok true h).
Proof.
  intros Hl1%wf_live Hl2%wf_live Hl3%wf_live.
  unfold Equals. rewrite !Equal_spec by done. split.
  - eexists. split; [done|]. split; [done|]. apply bool_decide_eq_true.
  - intros [= H1%bool_decide_eq_true] [= H2%bool_decide_eq_true].
    rewrite bool_decide_eq_true_2; [done|congruence].
Qed.

(** X12. The list returned by [Sub] has a cached length equal to its true
    size, which is at most the sum of the sizes of the two operands. *)
Theorem Sub_length_is_true_size h d d2 :
  wf h d = true -> wf h d2 = true ->
  (forall l, range_order l ≡ₚ l) ->
  exists r h',
    Sub d d2 h = Ok r h' /\
    Length r h' = Ok (Z.of_nat (length (contents h' r))) h' /\
    length (contents h' r) <= length (contents h d) + length (contents h d2).
Proof.
  intros Hl1%wf_live Hl2%wf_live Hperm.
  destruct (Sub_spec h d d2 Hl1 Hl2 Hperm)
    as (r & h' & Hrun & _ & Hnd & Hset & Hlen & _).
  exists r, h'. split; [done|]. split; [unfold Length, ret; by rewrite Hlen|].
  rewrite <- length_app. apply submseteq_length, NoDup_submseteq; [done|].
  intros x Hx. apply elem_of_app. by apply Hset.
Qed.

(** X13. [NewList] and [NilList] return initialised lists whose cached
    length is their true size: the elements coerced from the argument for
    [NewList], no element at all for [NilList], whatever its argument. *)
Theorem constructors_cache_true_size va h :
  (exists d h', NewList va h = Ok d h' /\
     contents h' d = ToStringSlice va /\
     Length d h' = Ok (Z.of_nat (length (contents h' d))) h') /\
  (exists d h', NilList va h = Ok d h' /\
     contents h' d = [] /\ Length d h' = Ok 0%Z h').
Proof.
  split.
  - destruct (NewList_spec va h) as (d & h' & Hrun & _ & Hc & Hlen).
    exists d, h'. split; [done|]. split; [done|].
    unfold Length, ret. by rewrite Hlen, Hc.
  - unfold NilList, bind, new_cell, ret. eexists _, _. split; [done|].
    split; [|done].
    unfold contents, backing; cbn [List_value cells].
    by rewrite lookup_app_r, Nat.sub_diag by lia.
Qed.


(** ** [Abs] *)

Lemma Abs_loop_spec src a0 n : forall i h dst,
  inb h src -> inb h dst -> i + n = s_len src ->
  s_arr src < a0 -> a0 <= s_arr dst -> a0 <= length (arrays h) ->
  exists r h',
    Abs_loop src i n dst h = Ok r h' /\
    view h' r = view h dst ++ map abs_text (drop i (view h src)) /\
    inb h' r /\ cells h' = cells h /\
    (forall a : loc, a < a0 -> array_at h' a = array_at h a).
Proof.
  induction n as [|n IH]; intros i h dst Hsrc Hdst Hi Hlt Hge Hlen.
  - exists dst, h. rewrite drop_ge by (rewrite view_length by done; lia).
    by rewrite app_nil_r.
  - destruct (index_view h src i Hsrc) as (x & Hx & Hidx); [lia|].
    cbn [Abs_loop]. unfold bind at 1. rewrite Hidx.
    assert (Hstep : exists r1 h1,
      (if bool_decide (ToInt x < 0)%Z
       then append spare dst [IntToString (int_neg (ToInt x))]
       else append spare dst [x]) h = Ok r1 h1 /\
      append spare dst [abs_text x] h = Ok r1 h1).
    { unfold abs_text.
      destruct (append_spec h dst
                  [if bool_decide (ToInt x < 0)%Z
                   then IntToString (int_neg (ToInt x)) else x] Hdst)
        as (r1 & h1 & Happ & _).
      exists r1, h1. split; [|done]. by case_bool_decide. }
    destruct Hstep as (r1 & h1 & Hrun & Happ).
    unfold bind at 1. rewrite Hrun.
    destruct (append_spec h dst [abs_text x] Hdst)
      as (r1' & h1' & Happ' & Hv1 & Hext & Hb1 & _).
    rewrite Happ in Happ'. injection Happ' as <- <-.
    assert (Hne : s_arr src ≠ s_arr dst) by lia.
    assert (Hsrc1 : inb h1 src) by exact (extends_inb h h1 src Hext Hsrc).
    assert (Hvs : view h1 src = view h src)
      by exact (append_other_view h dst [abs_text x] r1 h1 src Hdst Happ Hsrc Hne).
    assert (Hr1 : a0 <= s_arr r1).
    { destruct (append_cases h dst [abs_text x] r1 h1 Hdst Happ)
        as (_ & [[_ ->] | [(arr & _ & _ & -> & _) | (-> & _)]]); lia. }
    pose proof (append_array_count h dst _ r1 h1 Hdst Happ) as Hcnt.
    destruct (IH (S i) h1 r1 Hsrc1 Hb1) as (r & h' & Hloop & Hv & Hbr & Hc & Hfr);
      [lia..|].
    exists r, h'. split; [done|]. split_and!.
    + rewrite Hv, Hv1, Hvs, (drop_S _ _ _ Hx). cbn [map].
      by rewrite <- app_assoc.
    + done.
    + by rewrite Hc, (proj1 Hext).
    + intros a Ha. rewrite (Hfr a Ha). unfold array_at.
      rewrite (append_other_array h dst [abs_text x] r1 h1 a Hdst Happ) by lia.
      done.
Qed.

Lemma Abs_spec h d :
  live h d ->
  exists r h',
    Abs d h = Ok r h' /\ live h' r /\
    contents h' r = map abs_text (contents h d) /\
    List_length r = List_length d /\
    live h' d /\ contents h' d = contents h d /\
    List_value r ≠ List_value d.
Proof.
  intros (s & Hs & Hb). pose proof Hb as [Hb1 Hb2].
  assert (Hp : exists p, List_value d = Some p /\ cells h !! p = Some s).
  { unfold backing in Hs. destruct (List_value d) as [p|]; [|done]. by exists p. }
  destruct Hp as (p & Hp & Hcp).
  unfold Abs, ensureInitialized. rewrite Hp.
  unfold bind at 1, ret at 1. unfold bind at 1. rewrite (load_backing _ _ _ Hs).
  unfold bind at 1, make0, bind at 1, new_array, ret at 1.
  set (h0 := Heap (arrays h ++ [replicate (s_len s) ""]) (cells h)).
  set (dst := Slice (length (arrays h)) 0 0 (s_len s)).
  assert (Hs0 : backing h0 d = Some s) by exact Hs.
  unfold bind at 1. rewrite (load_backing _ _ _ Hs0).
  assert (Hdst : inb h0 dst).
  { unfold inb, dst, h0; cbn [s_arr s_off s_len s_cap].
    rewrite array_at_snoc, decide_True by done. rewrite length_replicate. lia. }
  assert (Hext0 : extends h h0).
  { split; [done|]. intros a. unfold h0. rewrite array_at_snoc.
    case_decide; [|done]. subst a. unfold array_at.
    rewrite (proj2 (lookup_ge_None _ _)); simpl; lia. }
  assert (Hsrc0 : inb h0 s) by exact (extends_inb h h0 s Hext0 Hb).
  destruct (decide (s_len s = 0)) as [Hz|Hnz].
  - rewrite Hz. cbn [Abs_loop]. unfold bind, ret, new_cell.
    set (h' := Heap (arrays h0) (cells h0 ++ [dst])).
    exists (mkList (Some (length (cells h0))) (List_length d)), h'.
    assert (Hbk : backing h' (mkList (Some (length (cells h0))) (List_length d))
                  = Some dst).
    { unfold backing, h'; cbn [List_value cells].
      by rewrite lookup_app_r, Nat.sub_diag by lia. }
    assert (Hbd : backing h' d = Some s) by exact (backing_snoc h0 _ dst d s Hs0).
    split; [done|]. split_and!.
    + exists dst. split; [done|]. exact (inb_arrays h0 h' dst eq_refl Hdst).
    + rewrite (contents_backing _ _ _ Hbk), (contents_backing _ _ _ Hs).
      unfold view. rewrite Hz. done.
    + done.
    + exists s. split; [done|]. exact (inb_arrays h0 h' s eq_refl Hsrc0).
    + rewrite (contents_backing _ _ _ Hbd), (contents_backing _ _ _ Hs).
      unfold view. by rewrite Hz.
    + cbn [List_value]. intros [= E].
      apply lookup_lt_Some in Hcp. unfold h0 in E; cbn [cells] in E. lia.
  - assert (Hlt : s_arr s < length (arrays h)).
    { destruct (decide (s_arr s < length (arrays h))); [done|].
      unfold array_at in Hb2.
      rewrite (proj2 (lookup_ge_None _ _)) in Hb2 by lia. simpl in Hb2. lia. }
    destruct (Abs_loop_spec s (length (arrays h)) (s_len s) 0 h0 dst Hsrc0 Hdst)
      as (r & h1 & Hloop & Hv & Hbr & Hc & Hfr);
      [lia|done|done|unfold h0; cbn [arrays]; rewrite length_app; lia|].
    unfold bind at 1. rewrite Hloop. unfold bind, ret, new_cell.
    set (h' := Heap (arrays h1) (cells h1 ++ [r])).
    exists (mkList (Some (length (cells h1))) (List_length d)), h'.
    assert (Hbk : backing h' (mkList (Some (length (cells h1))) (List_length d))
                  = Some r).
    { unfold backing, h'; cbn [List_value cells].
      by rewrite lookup_app_r, Nat.sub_diag by lia. }
    assert (Hs1 : backing h1 d = Some s).
    { unfold backing. by rewrite Hp, Hc. }
    assert (Hbd : backing h' d = Some s) by exact (backing_snoc h1 _ r d s Hs1).
    assert (Harr : array_at h' (s_arr s) = array_at h (s_arr s)).
    { change (array_at h' (s_arr s)) with (array_at h1 (s_arr s)).
      rewrite (Hfr _ Hlt). unfold array_at, h0; cbn [arrays].
      by rewrite lookup_app_l. }
    assert (Hvs0 : view h0 s = view h s).
    { unfold view, array_at, h0; cbn [arrays]. by rewrite lookup_app_l. }
    split; [done|]. split_and!.
    + exists r. split; [done|]. exact (inb_arrays h1 h' r eq_refl Hbr).
    + rewrite (contents_backing _ _ _ Hbk), (contents_backing _ _ _ Hs).
      rewrite (view_arrays h1 h' r eq_refl), Hv, drop_0, Hvs0. done.
    + done.
    + exists s. split; [done|]. unfold inb. by rewrite Harr.
    + rewrite (contents_backing _ _ _ Hbd), (contents_backing _ _ _ Hs).
      unfold view. by rewrite Harr.
    + cbn [List_value]. intros [= E].
      apply lookup_lt_Some in Hcp. rewrite Hc in E. unfold h0 in E; cbn [cells] in E. lia.
Qed.

(** X15. [Abs] returns a new list of the same size and cached length in
    which every element whose integer coercion is negative is replaced by
    the text of the negated integer, every other element is kept verbatim,
    and the receiver is left as it was. *)
Theorem Abs_elementwise h d :
  wf h d = true ->
  exists r h',
    Abs d h = Ok r h' /\
    contents h' r = map abs_text (contents h d) /\
    length (contents h' r) = length (contents h d) /\
    Length r h' = Ok (List_length d) h' /\
    contents h' d = contents h d /\
    (forall x, x ∈ contents h d -> (0 <= ToInt x)%Z -> x ∈ contents h' r).
Proof.
  intros Hl%wf_live.
  destruct (Abs_spec h d Hl) as (r & h' & Hrun & _ & Hc & Hlen & _ & Hd & _).
  exists r, h'. split_and!; [done|done| | |done|].
  - by rewrite Hc, length_map.
  - unfold Length, ret. by rewrite Hlen.
  - intros x Hx Hpos. rewrite Hc.
    apply list_elem_of_fmap. exists x. split; [|done].
    unfold abs_text. by rewrite bool_decide_eq_false_2 by lia.
Qed.


(** ** The zero value [List{}] *)



(** ** [Add]: composition and sharing *)

(** X16. [Add] is associative on lists that lie in different arrays:
    [(A.Add(B)).Add(C)] and [A.Add(B.Add(C))] show the same elements, those
    of [A], [B] and [C] in order, and have the same cached length. *)
Theorem Add_associative h a b c sa sb sc :
  backing h a = Some sa -> backing h b = Some sb -> backing h c = Some sc ->
  wf h a = true -> wf h b = true -> wf h c = true ->
  s_arr sa ≠ s_arr sb -> s_arr sa ≠ s_arr sc ->
  exists ab h1 abc h2 bc h3 abc' h4,
    Add a b h = Ok ab h1 /\ Add ab c h1 = Ok abc h2 /\
    Add b c h = Ok bc h3 /\ Add a bc h3 = Ok abc' h4 /\
    contents h2 abc = contents h a ++ contents h b ++ contents h c /\
    contents h4 abc' = contents h a ++ contents h b ++ contents h c /\
    List_length abc = List_length abc'.
Proof.
  intros Ha Hb Hc Hwa Hwb Hwc Hab Hac.
  assert (Hia : inb h sa).
  { apply wf_live in Hwa as (s & Hs & Hi). congruence. }
  assert (Hib : inb h sb).
  { apply wf_live in Hwb as (s & Hs & Hi). congruence. }
  assert (Hic : inb h sc).
  { apply wf_live in Hwc as (s & Hs & Hi). congruence. }
  destruct (Add_run h a b sa sb Ha Hia Hb Hib)
    as (ab & h1 & sab & Hrun1 & Hsab & Hbab & Hvab & Hlab & Hkeep1 & Hinb1 & _ & Hoth1).
  destruct (Add_run h1 ab c sab sc Hsab Hbab (Hkeep1 _ _ Hc) (Hinb1 _ Hic))
    as (abc & h2 & sabc & Hrun2 & Hsabc & _ & Hvabc & Hlabc & _).
  destruct (Add_run h b c sb sc Hb Hib Hc Hic)
    as (bc & h3 & sbc & Hrun3 & Hsbc & Hbbc & Hvbc & Hlbc & Hkeep3 & Hinb3 & _ & Hoth3).
  destruct (Add_run h3 a bc sa sbc (Hkeep3 _ _ Ha) (Hinb3 _ Hia) Hsbc Hbbc)
    as (abc' & h4 & sabc' & Hrun4 & Hsabc' & _ & Hvabc' & Hlabc' & _).
  exists ab, h1, abc, h2, bc, h3, abc', h4.
  rewrite (contents_backing _ _ _ Ha), (contents_backing _ _ _ Hb),
    (contents_backing _ _ _ Hc).
  split_and!; [done..| | |].
  - rewrite (contents_backing _ _ _ Hsabc), Hvabc, Hvab.
    rewrite (Hoth1 sc Hic) by done. by rewrite <- app_assoc.
  - rewrite (contents_backing _ _ _ Hsabc'), Hvabc', Hvbc.
    by rewrite (Hoth3 sa Hia) by done.
  - rewrite Hlabc, Hlab, Hlabc', Hlbc. unfold int_add.
    by rewrite wrap_add_l, wrap_add_r, Z.add_assoc.
Qed.

Lemma write_at_twice arr pos y ys v :
  pos + S (length ys) <= length arr ->
  write_at (write_at arr pos (y :: ys)) pos [v] = write_at arr pos (v :: ys).
Proof.
  intros H. unfold write_at. cbn [length].
  assert (Hl : length (take pos arr) = pos) by (rewrite length_take; lia).
  rewrite take_app_length' by lia.
  f_equal. cbn [app]. f_equal.
  replace (pos + 1) with (length (take pos arr) + 1) by lia.
  rewrite <- drop_drop, drop_app_length. done.
Qed.

(** X17. When the receiver's array has room for the argument's elements,
    the list returned by [Add] lives in that same array: a later [Append]
    through the receiver overwrites the first element that the sum took
    from the argument. *)
Theorem Add_result_shares_receiver_array h d d2 s y ys v :
  wf h d = true -> wf h d2 = true ->
  backing h d = Some s ->
  contents h d2 = y :: ys ->
  s_len s + S (length ys) <= s_cap s ->
  exists r h1 h2,
    Add d d2 h = Ok r h1 /\
    contents h1 r = contents h d ++ y :: ys /\
    Append d v h1 = Ok tt h2 /\
    contents h2 r = contents h d ++ ToString v :: ys.
Proof.
  intros Hwd Hwd2 Hs Hc2 Hroom.
  assert (Hb : inb h s).
  { apply wf_live in Hwd as (s' & Hs' & Hi). congruence. }
  pose proof Hb as [Hb1 Hb2].
  apply wf_live in Hwd2 as (s2 & Hs2 & Hib2).
  rewrite (contents_backing _ _ _ Hs2) in Hc2.
  rewrite (contents_backing _ _ _ Hs).
  assert (Hp : exists p, List_value d = Some p /\ cells h !! p = Some s).
  { unfold backing in Hs. destruct (List_value d) as [p|]; [|done]. by exists p. }
  destruct Hp as (p & Hp & Hcp).
  pose proof (lookup_lt_Some _ _ _ Hcp) as Hplt.
  destruct (append_in_place h s (y :: ys) Hb) as (arr & Ea & Happ);
    [cbn [length]; lia|done|].
  assert (Harr : array_at h (s_arr s) = arr) by (unfold array_at; by rewrite Ea).
  assert (Halt : s_arr s < length (arrays h)) by (eapply lookup_lt_Some; eauto).
  rewrite Harr in Hb2.
  set (pos := s_off s + s_len s) in *.
  set (r0 := Slice (s_arr s) (s_off s) (s_len s + length (y :: ys)) (s_cap s)) in *.
  set (arrs1 := <[s_arr s := write_at arr pos (y :: ys)]> (arrays h)) in *.
  set (h1 := Heap arrs1 (cells h ++ [r0])).
  set (r := mkList (Some (length (cells h)))
                   (int_add (List_length d) (List_length d2))).
  assert (Hrun1 : Add d d2 h = Ok r h1).
  { unfold Add. unfold bind at 1. rewrite (load_backing _ _ _ Hs).
    unfold bind at 1. rewrite (load_backing _ _ _ Hs2).
    unfold bind at 1, elems at 1. rewrite Hc2.
    unfold bind at 1. rewrite Happ. done. }
  assert (Hbr1 : backing h1 r = Some r0).
  { unfold backing, h1, r; cbn [List_value cells].
    by rewrite lookup_app_r, Nat.sub_diag by lia. }
  assert (Hv1 : view h1 r0 = view h s ++ y :: ys).
  { unfold view at 1, array_at, h1, arrs1, r0; cbn [arrays s_arr s_off s_len].
    rewrite list_lookup_insert_eq by done. cbn [from_option]. unfold id.
    unfold pos. rewrite view_write_at by (cbn [length] in *; lia).
    unfold view. by rewrite Harr. }
  assert (Hs1 : backing h1 d = Some s) by exact (backing_snoc h arrs1 r0 d s Hs).
  assert (Hbs1 : inb h1 s).
  { split; [done|]. unfold array_at, h1, arrs1; cbn [arrays].
    rewrite list_lookup_insert_eq by done. cbn [from_option]. unfold id.
    rewrite write_at_length by (unfold pos; cbn [length]; lia). done. }
  destruct (append_in_place h1 s [ToString v] Hbs1) as (arr1 & Ea1 & Happ1);
    [cbn [length]; lia|done|].
  assert (Harr1 : arr1 = write_at arr pos (y :: ys)).
  { unfold h1, arrs1 in Ea1; cbn [arrays] in Ea1.
    rewrite list_lookup_insert_eq in Ea1 by done. congruence. }
  subst arr1. fold pos in Happ1.
  set (r1 := Slice (s_arr s) (s_off s) (s_len s + length [ToString v]) (s_cap s)) in *.
  set (arrs2 := <[s_arr s := write_at (write_at arr pos (y :: ys)) pos [ToString v]]>
                  (arrays h1)) in *.
  set (h2 := Heap arrs2 (<[p := r1]> (cells h1))).
  assert (Hrun2 : Append d v h1 = Ok tt h2).
  { unfold Append. unfold bind at 1. rewrite (load_backing _ _ _ Hs1).
    unfold bind at 1. rewrite Happ1.
    unfold store; cbn [cells]. rewrite Hp.
    unfold h1 at 1; cbn [cells]. by rewrite (lookup_app_l_Some _ _ _ _ Hcp). }
  exists r, h1, h2. split; [done|]. split.
  { by rewrite (contents_backing _ _ _ Hbr1). }
  split; [done|].
  assert (Hbr2 : backing h2 r = Some r0).
  { unfold backing, h2, h1, r; cbn [List_value cells].
    rewrite list_lookup_insert_ne by lia.
    by rewrite lookup_app_r, Nat.sub_diag by lia. }
  rewrite (contents_backing _ _ _ Hbr2).
  unfold view at 1, array_at, h2, arrs2, r0; cbn [arrays s_arr s_off s_len].
  rewrite list_lookup_insert_eq
    by (unfold h1, arrs1; cbn [arrays]; by rewrite length_insert).
  cbn [from_option]. unfold id.
  rewrite write_at_twice by (unfold pos; lia).
  change (length (y :: ys)) with (length (ToString v :: ys)).
  unfold pos. rewrite view_write_at by (cbn [length] in *; lia).
  unfold view. by rewrite Harr.
Qed.


(** X18. [Remove] is right when the value's text is not repeated: it leaves
    the store untouched when the text is absent, and removes the element
    when it occurs exactly once. *)
Theorem Remove_right_without_repeats h d v :
  wf h d = true ->
  (ToString v ∉ contents h d -> Remove d v h = Ok tt h) /\
  (forall l1 l2,
     contents h d = l1 ++ ToString v :: l2 ->
     ToString v ∉ l1 -> ToString v ∉ l2 ->
     exists h', Remove d v h = Ok tt h' /\ contents h' d = l1 ++ l2).
Proof.
  intros Hwf. split.
  - intros Hout. by apply Remove_absent; [apply wf_live|].
  - intros l1 l2 Hc H1 H2.
    destruct (Remove_single_occurrence h d v l1 l2 Hwf Hc H1 H2)
      as (h' & Hrun & _ & Hc').
    by exists h'.
Qed.

(** X19. [Extend] puts the coerced elements of its argument, in order, after
    the elements the list has; with nothing to add it leaves the store
    exactly as it was. *)
Theorem Extend_appends_in_order h d sub :
  wf h d = true ->
  (exists h', Extend d sub h = Ok tt h' /\
              contents h' d = contents h d ++ ToStringSlice sub) /\
  (ToStringSlice sub = [] -> Extend d sub h = Ok tt h).
Proof.
  intros Hwf. pose proof (wf_live _ _ Hwf) as Hl. split.
  - destruct (Extend_spec h d sub Hl) as (h' & Hrun & _ & Hc). by exists h'.
  - intros Hnil. destruct Hl as (s & Hs & [Hb1 Hb2]).
    unfold Extend, bind. rewrite (load_backing _ _ _ Hs), Hnil.
    rewrite append_nil by done.
    unfold backing in Hs. unfold store.
    destruct (List_value d) as [p|]; [|done]. rewrite Hs.
    rewrite list_insert_id by done. by destruct h.
Qed.

End Methods.

(** ** The claims on concrete stores *)

(** C1. [Remove] keeps scanning after the first match, over an array it has
    just shifted.  On [[a,b,a]] the result is still [[b,a]], but on
    [[a,b,a,c]] removing [a] yields [[b,c,c]] instead of [[b,a,c]]: the
    second [a] is removed as well and the last element is doubled. *)
Theorem Remove_continues_after_first_match :
  forall spare : nat -> nat -> nat,
    (exists h', Remove string id spare (list_at 0 3) "a"
                  (heap_of ["a"; "b"; "a"]) = Ok tt h' /\
                contents h' (list_at 0 3) = ["b"; "a"]) /\
    (exists h', Remove string id spare (list_at 0 4) "a"
                  (heap_of ["a"; "b"; "a"; "c"]) = Ok tt h' /\
                contents h' (list_at 0 4) = ["b"; "c"; "c"] /\
                contents h' (list_at 0 4) ≠ ["b"; "a"; "c"]).
Proof.
  intros spare. split.
  - eexists. split; [vm_compute; reflexivity|]. reflexivity.
  - eexists. split; [vm_compute; reflexivity|]. split; [reflexivity|].
    vm_compute. discriminate.
Qed.

Lemma Pop_removes_at_effective_index_witness :
  wf (heap_of ["a"; "b"; "c"]) (list_at 0 3) = true /\
  (0 <= effective_index (list_at 0 3) (-1)
     < Z.of_nat (length (contents (heap_of ["a"; "b"; "c"]) (list_at 0 3))))%Z /\
  exists h', Pop no_spare (list_at 0 3) (-1) (heap_of ["a"; "b"; "c"]) = Ok tt h' /\
             contents h' (list_at 0 3) = ["a"; "b"].
Proof.
  assert (Hr : (0 <= effective_index (list_at 0 3) (-1)
     < Z.of_nat (length (contents (heap_of ["a"; "b"; "c"]) (list_at 0 3))))%Z)
    by (vm_compute; split; [discriminate|reflexivity]).
  split; [reflexivity|]. split; [exact Hr|].
  destruct (Pop_removes_at_effective_index no_spare
              (heap_of ["a"; "b"; "c"]) (list_at 0 3) (-1) eq_refl Hr)
    as (h' & Hrun & _ & _ & Hlast).
  exists h'. split; [exact Hrun|]. exact (Hlast eq_refl eq_refl).
Defined.

Lemma mutations_keep_cached_length_witness :
  (NilList string "x" (Heap [] []) = Ok (list_at 0 0) (Heap [] [nil_slice]) /\
   wf (Heap [] [nil_slice]) (list_at 0 0) = true /\
   Length (list_at 0 0) (Heap [] [nil_slice]) = Ok 0%Z (Heap [] [nil_slice]) /\
   exists h', Append string id no_spare (list_at 0 0) "b" (Heap [] [nil_slice])
                = Ok tt h' /\
              Length (list_at 0 0) h' = Ok 0%Z h' /\
              length (contents h' (list_at 0 0)) = 1) /\
  (wf (heap_of ["a"; "b"; "c"]) (list_at 0 3) = true /\
   1 <= length (contents (heap_of ["a"; "b"; "c"]) (list_at 0 3)) /\
   (0 <= effective_index (list_at 0 3) (-1)
      < Z.of_nat (length (contents (heap_of ["a"; "b"; "c"]) (list_at 0 3))))%Z /\
   (exists h', Insert string id no_spare (list_at 0 3) 1 "b"
                 (heap_of ["a"; "b"; "c"]) = Ok tt h' /\
               Length (list_at 0 3) h' = Ok 3%Z h' /\
               length (contents h' (list_at 0 3)) = 4) /\
   (exists h', Pop no_spare (list_at 0 3) (-1) (heap_of ["a"; "b"; "c"]) = Ok tt h' /\
               Length (list_at 0 3) h' = Ok 3%Z h' /\
               length (contents h' (list_at 0 3)) = 2)).
Proof.
  split.
  - split; [reflexivity|]. split; [reflexivity|].
    destruct (mutations_keep_cached_length string id (fun s => [s]) no_spare
                (Heap [] [nil_slice]) (list_at 0 0) "b" "x" 0 0 eq_refl)
      as (HL & (h' & Hrun & HL' & Hsz) & _).
    split; [exact HL|]. exists h'.
    split; [exact Hrun|]. split; [exact HL'|exact Hsz].
  - assert (Hi : 1 <= length (contents (heap_of ["a"; "b"; "c"]) (list_at 0 3)))
      by (vm_compute; lia).
    assert (Hr : (0 <= effective_index (list_at 0 3) (-1)
       < Z.of_nat (length (contents (heap_of ["a"; "b"; "c"]) (list_at 0 3))))%Z)
      by (vm_compute; split; [discriminate|reflexivity]).
    split; [reflexivity|]. split; [exact Hi|]. split; [exact Hr|].
    destruct (mutations_keep_cached_length string id (fun s => [s]) no_spare
                (heap_of ["a"; "b"; "c"]) (list_at 0 3) "b" "x" 1 (-1) eq_refl)
      as (_ & _ & _ & Hins & Hpop & _).
    split; [exact (Hins Hi)|exact (Hpop Hr)].
Defined.

Lemma Copy_shares_storage_witness :
  wf (heap_of ["a"]) (list_at 0 1) = true /\
  exists d' h' s,
    Copy (list_at 0 1) (heap_of ["a"]) = Ok d' (heap_of ["a"]) /\
    Append string id double_spare (list_at 0 1) "b" (heap_of ["a"]) = Ok tt h' /\
    String d' h' = Ok s h' /\ view h' s = ["a"; "b"].
Proof.
  split; [reflexivity|].
  destruct (Copy_shares_storage string id double_spare (heap_of ["a"]) (list_at 0 1)
              "b" eq_refl)
    as (d' & Hcopy & _ & _ & (h' & s & Hrun & Hstr & Hv) & _).
  exists d', h', s. split; [exact Hcopy|]. split; [exact Hrun|].
  split; [exact Hstr|exact Hv].
Defined.

Lemma Sub_is_deduplicated_union_witness :
  wf (heap_of2 ["a"; "b"; "a"] ["b"; "c"]) (list_at 0 3) = true /\
  wf (heap_of2 ["a"; "b"; "a"] ["b"; "c"]) (list_at 1 2) = true /\
  (forall l : list string, reverse l ≡ₚ l) /\
  exists r h',
    Sub no_spare reverse (list_at 0 3) (list_at 1 2)
        (heap_of2 ["a"; "b"; "a"] ["b"; "c"]) = Ok r h' /\
    NoDup (contents h' r) /\
    "c" ∈ contents h' r.
Proof.
  split; [reflexivity|]. split; [reflexivity|].
  split; [exact reverse_Permutation|].
  destruct (Sub_is_deduplicated_union no_spare reverse
              (heap_of2 ["a"; "b"; "a"] ["b"; "c"]) (list_at 0 3) (list_at 1 2)
              eq_refl eq_refl reverse_Permutation)
    as (r & h' & Hrun & Hnd & Hset & _).
  exists r, h'. split; [exact Hrun|]. split; [exact Hnd|].
  apply Hset. right. vm_compute. right. left.
Defined.

Lemma Insert_overwrites_element_at_index_witness :
  wf (heap_of ["a"; "b"]) (list_at 0 2) = true /\
  contents (heap_of ["a"; "b"]) (list_at 0 2) !! 0 = Some "a" /\
  exists h', Insert string id no_spare (list_at 0 2) 0 "c" (heap_of ["a"; "b"])
               = Ok tt h' /\
             contents h' (list_at 0 2) = ["c"; "c"; "b"].
Proof.
  split; [reflexivity|]. split; [reflexivity|].
  destruct (Insert_overwrites_element_at_index string id no_spare
              (heap_of ["a"; "b"]) (list_at 0 2) 0 "c" "a" eq_refl eq_refl)
    as (h' & Hrun & Hc).
  exists h'. split; [exact Hrun|exact Hc].
Defined.

(** C7 as stated fails when the appended text is already in the list:
    on [[a]], [Append(a)] gives [[a,a]] and [Index(a)] returns 0, not 1. *)
Lemma Index_after_Append_not_last :
  exists h',
    Append string id no_spare (list_at 0 1) "a" (heap_of ["a"]) = Ok tt h' /\
    contents h' (list_at 0 1) = ["a"; "a"] /\
    Index string id (list_at 0 1) "a" h' = Ok 0%Z h' /\
    Index string id (list_at 0 1) "a" h'
      ≠ Ok (Z.of_nat (length (contents h' (list_at 0 1))) - 1)%Z h'.
Proof.
  eexists. split; [vm_compute; reflexivity|].
  split; [reflexivity|]. split; [reflexivity|].
  vm_compute. discriminate.
Qed.

Lemma Index_after_Append_first_match_witness :
  wf (heap_of ["a"; "b"]) (list_at 0 2) = true /\
  exists h' i,
    Append string id no_spare (list_at 0 2) "c" (heap_of ["a"; "b"]) = Ok tt h' /\
    Index string id (list_at 0 2) "c" h' = Ok (Z.of_nat i) h' /\
    Z.of_nat i = (Z.of_nat (length (contents h' (list_at 0 2))) - 1)%Z.
Proof.
  split; [reflexivity|].
  destruct (Index_after_Append_first_match string id no_spare
              (heap_of ["a"; "b"]) (list_at 0 2) "c" eq_refl)
    as (h' & i & Hrun & Hidx & _ & _ & Hlast).
  exists h', i. split; [exact Hrun|]. split; [exact Hidx|].
  apply Hlast. vm_compute. intros H.
  repeat (apply elem_of_cons in H as [H|H]; [discriminate H|]).
  by apply elem_of_nil in H.
Defined.

Lemma Equal_reflexive_symmetric_order_length_witness :
  (wf (heap_of2 ["a"; "b"] ["b"; "a"]) (list_at 0 2) = true /\
   wf (heap_of2 ["a"; "b"] ["b"; "a"]) (list_at 1 2) = true /\
   Equal (list_at 0 2) (list_at 0 2) (heap_of2 ["a"; "b"] ["b"; "a"])
     = Ok true (heap_of2 ["a"; "b"] ["b"; "a"]) /\
   Equal (list_at 0 2) (list_at 1 2) (heap_of2 ["a"; "b"] ["b"; "a"])
     = Ok false (heap_of2 ["a"; "b"] ["b"; "a"])) /\
  (wf (heap_of2 ["a"; "b"] ["a"; "b"]) (list_at 0 2) = true /\
   wf (heap_of2 ["a"; "b"] ["a"; "b"]) (list_at 1 2) = true /\
   Equal (list_at 0 2) (list_at 1 2) (heap_of2 ["a"; "b"] ["a"; "b"])
     = Ok true (heap_of2 ["a"; "b"] ["a"; "b"])) /\
  (wf (heap_of2 ["a"] ["a"; "a"]) (list_at 0 1) = true /\
   wf (heap_of2 ["a"] ["a"; "a"]) (list_at 1 2) = true /\
   Equal (list_at 0 1) (list_at 1 2) (heap_of2 ["a"] ["a"; "a"])
     = Ok false (heap_of2 ["a"] ["a"; "a"])).
Proof.
  split; [|split].
  - split; [reflexivity|]. split; [reflexivity|].
    destruct (Equal_reflexive_symmetric_order_length
                (heap_of2 ["a"; "b"] ["b"; "a"]) (list_at 0 2) (list_at 1 2)
                eq_refl eq_refl) as (Hrefl & _ & Hord & _).
    split; [exact Hrefl|].
    apply (Hord "a" "b"); [discriminate|reflexivity|reflexivity].
  - split; [reflexivity|]. split; [reflexivity|].
    destruct (Equal_reflexive_symmetric_order_length
                (heap_of2 ["a"; "b"] ["a"; "b"]) (list_at 0 2) (list_at 1 2)
                eq_refl eq_refl) as (_ & _ & _ & Hsame & _).
    apply (Hsame "a" "b"); reflexivity.
  - split; [reflexivity|]. split; [reflexivity|].
    destruct (Equal_reflexive_symmetric_order_length
                (heap_of2 ["a"] ["a"; "a"]) (list_at 0 1) (list_at 1 2)
                eq_refl eq_refl) as (_ & _ & _ & _ & Hlen).
    apply (Hlen "a"); reflexivity.
Defined.

Lemma Min_Max_of_integer_coercions_witness :
  NewList (list string) id no_spare ["3"; "1"; "2"] (Heap [] [])
    = Ok (list_at 0 3) (heap_of ["3"; "1"; "2"]) /\
  wf (heap_of ["3"; "1"; "2"]) (list_at 0 3) = true /\
  forallb int_text_ok (contents (heap_of ["3"; "1"; "2"]) (list_at 0 3)) = true /\
  Min parse_int int_text_ok (list_at 0 3) (heap_of ["3"; "1"; "2"])
    = Ok 1%Z (heap_of ["3"; "1"; "2"]) /\
  Max parse_int int_text_ok (list_at 0 3) (heap_of ["3"; "1"; "2"])
    = Ok 3%Z (heap_of ["3"; "1"; "2"]).
Proof.
  split; [reflexivity|]. split; [reflexivity|]. split; [reflexivity|].
  destruct (Min_Max_of_integer_coercions parse_int int_text_ok
              (heap_of ["3"; "1"; "2"]) (list_at 0 3) eq_refl)
    as (_ & _ & Hex).
  exact (Hex eq_refl eq_refl eq_refl eq_refl eq_refl eq_refl eq_refl).
Defined.

(** C9 as stated fails on a non-empty list that holds a text which is not
    an integer: on ["3","x"] the conversion gives up, [Min()] and [Max()]
    index an empty slice and panic instead of returning 3. *)
Lemma Min_Max_panic_on_non_integer_text :
  wf (heap_of ["3"; "x"]) (list_at 0 2) = true /\
  contents (heap_of ["3"; "x"]) (list_at 0 2) ≠ [] /\
  Min parse_int int_text_ok (list_at 0 2) (heap_of ["3"; "x"]) = Panic OutOfRange /\
  Max parse_int int_text_ok (list_at 0 2) (heap_of ["3"; "x"]) = Panic OutOfRange.
Proof.
  split; [reflexivity|]. split; [discriminate|].
  split; reflexivity.
Qed.

Lemma Equal_ignores_cached_length_witness :
  (wf (heap_of2 ["5"] ["5"]) (list_at 0 1) = true /\
   wf (heap_of2 ["5"] ["5"]) (list_at 1 7) = true /\
   Length (list_at 0 1) (heap_of2 ["5"] ["5"]) = Ok 1%Z (heap_of2 ["5"] ["5"]) /\
   Length (list_at 1 7) (heap_of2 ["5"] ["5"]) = Ok 7%Z (heap_of2 ["5"] ["5"]) /\
   Equal (list_at 0 1) (list_at 1 7) (heap_of2 ["5"] ["5"])
     = Ok true (heap_of2 ["5"] ["5"])) /\
  (wf (heap_of2 ["5"] ["6"]) (list_at 0 1) = true /\
   wf (heap_of2 ["5"] ["6"]) (list_at 1 1) = true /\
   Equal (list_at 0 1) (list_at 1 1) (heap_of2 ["5"] ["6"])
     = Ok false (heap_of2 ["5"] ["6"])).
Proof.
  split.
  - split; [reflexivity|]. split; [reflexivity|].
    split; [reflexivity|]. split; [reflexivity|].
    exact (proj1 (Equal_ignores_cached_length (fun _ => "5") no_spare
                    (heap_of2 ["5"] ["5"]) (list_at 0 1) (list_at 1 7)
                    eq_refl eq_refl)).
  - split; [reflexivity|]. split; [reflexivity|].
    exact (proj1 (Equal_ignores_cached_length (fun _ => "5") no_spare
                    (heap_of2 ["5"] ["6"]) (list_at 0 1) (list_at 1 1)
                    eq_refl eq_refl)).
Defined.

(** With a stale cached length [Pop(-1)] does not remove the last element:
    after [Append(d)] on [[a,b,c]] the cached length is still 3, so index 2
    goes and [[a,b,d]] stays. *)
Example Pop_with_stale_length :
  exists h1 h2,
    Append string id no_spare (list_at 0 3) "d" (heap_of ["a"; "b"; "c"])
      = Ok tt h1 /\
    contents h1 (list_at 0 3) = ["a"; "b"; "c"; "d"] /\
    Pop no_spare (list_at 0 3) (-1) h1 = Ok tt h2 /\
    contents h2 (list_at 0 3) = ["a"; "b"; "d"].
Proof.
  eexists _, _. split; [vm_compute; reflexivity|]. split; [reflexivity|].
  split; [vm_compute; reflexivity|]. reflexivity.
Qed.

(** ** Further properties on concrete stores *)

Lemma Add_concatenates_witness :
  wf (heap_of2 ["a"; "b"] ["c"]) (list_at 0 2) = true /\
  wf (heap_of2 ["a"; "b"] ["c"]) (list_at 1 1) = true /\
  exists r h',
    Add no_spare (list_at 0 2) (list_at 1 1) (heap_of2 ["a"; "b"] ["c"]) = Ok r h' /\
    contents h' r = ["a"; "b"; "c"] /\
    Length r h' = Ok 3%Z h'.
Proof.
  split; [reflexivity|]. split; [reflexivity|].
  destruct (Add_concatenates no_spare (heap_of2 ["a"; "b"] ["c"])
              (list_at 0 2) (list_at 1 1) eq_refl eq_refl)
    as (r & h' & Hrun & Hc & Hl & _).
  exists r, h'. split; [exact Hrun|]. split; [exact Hc|exact Hl].
Defined.

Lemma Sum_is_wrapped_total_witness :
  wf (heap_of ["3"; "1"; "2"]) (list_at 0 3) = true /\
  Sum parse_int (list_at 0 3) (heap_of ["3"; "1"; "2"])
    = Ok 6%Z (heap_of ["3"; "1"; "2"]).
Proof.
  split; [reflexivity|].
  exact (proj1 (Sum_is_wrapped_total parse_int (heap_of ["3"; "1"; "2"])
                  (list_at 0 3) eq_refl)).
Defined.

Lemma Sum_of_Add_witness :
  wf (heap_of2 ["3"; "1"] ["-2"]) (list_at 0 2) = true /\
  wf (heap_of2 ["3"; "1"] ["-2"]) (list_at 1 1) = true /\
  exists r h',
    Add no_spare (list_at 0 2) (list_at 1 1) (heap_of2 ["3"; "1"] ["-2"]) = Ok r h' /\
    Sum parse_int r h' = Ok 2%Z h'.
Proof.
  split; [reflexivity|]. split; [reflexivity|].
  destruct (Sum_of_Add parse_int no_spare (heap_of2 ["3"; "1"] ["-2"])
              (list_at 0 2) (list_at 1 1) eq_refl eq_refl)
    as (r & h' & a & b & Hrun & Ha & Hb & Hsum).
  exists r, h'. split; [exact Hrun|].
  injection Ha as <-. injection Hb as <-. exact Hsum.
Defined.

Lemma Count_counts_occurrences_witness :
  wf (heap_of ["a"; "b"; "a"; "c"; "a"]) (list_at 0 5) = true /\
  Count string id (list_at 0 5) "a" (heap_of ["a"; "b"; "a"; "c"; "a"])
    = Ok 3%Z (heap_of ["a"; "b"; "a"; "c"; "a"]).
Proof.
  split; [reflexivity|].
  exact (Count_counts_occurrences string id (heap_of ["a"; "b"; "a"; "c"; "a"])
           (list_at 0 5) "a" eq_refl).
Defined.

Lemma In_Index_agree_witness :
  wf (heap_of ["a"; "b"; "b"]) (list_at 0 3) = true /\
  exists b i,
    In string id (list_at 0 3) "b" (heap_of ["a"; "b"; "b"])
      = Ok b (heap_of ["a"; "b"; "b"]) /\
    Index string id (list_at 0 3) "b" (heap_of ["a"; "b"; "b"])
      = Ok i (heap_of ["a"; "b"; "b"]) /\
    (b = false ↔ i = (-1)%Z).
Proof.
  split; [reflexivity|].
  destruct (In_Index_agree string id (heap_of ["a"; "b"; "b"]) (list_at 0 3) "b"
              eq_refl) as (b & i & Hin & Hidx & _ & Hno & _).
  exists b, i. split; [exact Hin|]. split; [exact Hidx|exact Hno].
Defined.

Lemma Pop_out_of_range_panics_witness :
  wf (heap_of ["a"; "b"; "c"]) (list_at 0 3) = true /\
  (min_int <= 3 <= max_int)%Z /\
  ~ (0 <= effective_index (list_at 0 3) 3
       < Z.of_nat (length (contents (heap_of ["a"; "b"; "c"]) (list_at 0 3))))%Z /\
  Pop no_spare (list_at 0 3) 3 (heap_of ["a"; "b"; "c"]) = Panic OutOfRange.
Proof.
  assert (Hint : (min_int <= 3 <= max_int)%Z)
    by (vm_compute; split; discriminate).
  assert (Hout : ~ (0 <= effective_index (list_at 0 3) 3
       < Z.of_nat (length (contents (heap_of ["a"; "b"; "c"]) (list_at 0 3))))%Z)
    by (vm_compute; intros [_ H]; discriminate H).
  split; [reflexivity|]. split; [exact Hint|]. split; [exact Hout|].
  exact (Pop_out_of_range_panics no_spare (heap_of ["a"; "b"; "c"]) (list_at 0 3) 3
           eq_refl Hint Hout).
Defined.

Lemma Insert_out_of_range_panics_witness :
  wf (heap_of ["a"; "b"]) (list_at 0 2) = true /\
  ~ (0 <= 3 <= Z.of_nat (length (contents (heap_of ["a"; "b"]) (list_at 0 2))))%Z /\
  Insert string id no_spare (list_at 0 2) 3 "c" (heap_of ["a"; "b"])
    = Panic OutOfRange.
Proof.
  assert (Hout : ~ (0 <= 3
       <= Z.of_nat (length (contents (heap_of ["a"; "b"]) (list_at 0 2))))%Z)
    by (vm_compute; intros [_ H]; apply H; reflexivity).
  split; [reflexivity|]. split; [exact Hout|].
  exact (Insert_out_of_range_panics string id no_spare (heap_of ["a"; "b"])
           (list_at 0 2) 3 "c" eq_refl Hout).
Defined.

Lemma Insert_at_end_appends_witness :
  wf (heap_of ["a"; "b"]) (list_at 0 2) = true /\
  exists h1,
    Insert string id no_spare (list_at 0 2) 2 "c" (heap_of ["a"; "b"]) = Ok tt h1 /\
    contents h1 (list_at 0 2) = ["a"; "b"; "c"].
Proof.
  split; [reflexivity|].
  destruct (Insert_at_end_appends string id no_spare (heap_of ["a"; "b"])
              (list_at 0 2) "c" eq_refl) as (h1 & h2 & Hrun & _ & Hc & _).
  exists h1. split; [exact Hrun|exact Hc].
Defined.

Lemma Append_then_Pop_restores_witness :
  wf (heap_of ["a"; "b"]) (list_at 0 2) = true /\
  (Z.of_nat (length (contents (heap_of ["a"; "b"]) (list_at 0 2))) < max_int)%Z /\
  exists h1 h2,
    Append string id double_spare (list_at 0 2) "c" (heap_of ["a"; "b"]) = Ok tt h1 /\
    Pop double_spare (list_at 0 2) 2 h1 = Ok tt h2 /\
    contents h2 (list_at 0 2) = ["a"; "b"].
Proof.
  assert (Hmax : (Z.of_nat (length (contents (heap_of ["a"; "b"]) (list_at 0 2)))
                  < max_int)%Z) by (vm_compute; reflexivity).
  split; [reflexivity|]. split; [exact Hmax|].
  destruct (Append_then_Pop_restores string id double_spare (heap_of ["a"; "b"])
              (list_at 0 2) "c" eq_refl Hmax) as (h1 & h2 & Hrun & Hpop & Hc).
  exists h1, h2. split; [exact Hrun|]. split; [exact Hpop|exact Hc].
Defined.

Lemma Index_stable_under_growth_witness :
  wf (heap_of ["a"; "b"]) (list_at 0 2) = true /\
  "b" ∈ contents (heap_of ["a"; "b"]) (list_at 0 2) /\
  exists h1,
    Append string id no_spare (list_at 0 2) "b" (heap_of ["a"; "b"]) = Ok tt h1 /\
    Index string id (list_at 0 2) "b" h1 = Ok 1%Z h1.
Proof.
  assert (Hin : "b" ∈ contents (heap_of ["a"; "b"]) (list_at 0 2))
    by (vm_compute; right; left).
  split; [reflexivity|]. split; [exact Hin|].
  destruct (Index_stable_under_growth string id (fun s => [s]) no_spare
              (heap_of ["a"; "b"]) (list_at 0 2) "b" "b" "x" eq_refl Hin)
    as (i & h1 & h2 & Hi & Hrun & Hi1 & _).
  exists h1. split; [exact Hrun|].
  injection Hi as <-. exact Hi1.
Defined.

Lemma Equal_decides_contents_witness :
  wf (heap_of3 ["a"] ["a"] ["a"]) (list_at 0 1) = true /\
  wf (heap_of3 ["a"] ["a"] ["a"]) (list_at 1 5) = true /\
  wf (heap_of3 ["a"] ["a"] ["a"]) (list_at 2 9) = true /\
  Equal (list_at 0 1) (list_at 1 5) (heap_of3 ["a"] ["a"] ["a"])
    = Ok true (heap_of3 ["a"] ["a"] ["a"]) /\
  Equal (list_at 1 5) (list_at 2 9) (heap_of3 ["a"] ["a"] ["a"])
    = Ok true (heap_of3 ["a"] ["a"] ["a"]) /\
  Equal (list_at 0 1) (list_at 2 9) (heap_of3 ["a"] ["a"] ["a"])
    = Ok true (heap_of3 ["a"] ["a"] ["a"]).
Proof.
  split; [reflexivity|]. split; [reflexivity|]. split; [reflexivity|].
  split; [reflexivity|]. split; [reflexivity|].
  exact (proj2 (Equal_decides_contents (heap_of3 ["a"] ["a"] ["a"])
                  (list_at 0 1) (list_at 1 5) (list_at 2 9)
                  eq_refl eq_refl eq_refl) eq_refl eq_refl).
Defined.

Lemma Sub_length_is_true_size_witness :
  wf (heap_of2 ["a"; "b"; "a"] ["b"; "c"]) (list_at 0 3) = true /\
  wf (heap_of2 ["a"; "b"; "a"] ["b"; "c"]) (list_at 1 2) = true /\
  (forall l : list string, reverse l ≡ₚ l) /\
  exists r h',
    Sub no_spare reverse (list_at 0 3) (list_at 1 2)
        (heap_of2 ["a"; "b"; "a"] ["b"; "c"]) = Ok r h' /\
    Length r h' = Ok (Z.of_nat (length (contents h' r))) h' /\
    length (contents h' r) <= 5.
Proof.
  split; [reflexivity|]. split; [reflexivity|].
  split; [exact reverse_Permutation|].
  destruct (Sub_length_is_true_size no_spare reverse
              (heap_of2 ["a"; "b"; "a"] ["b"; "c"]) (list_at 0 3) (list_at 1 2)
              eq_refl eq_refl reverse_Permutation)
    as (r & h' & Hrun & Hlen & Hle).
  exists r, h'. split; [exact Hrun|]. split; [exact Hlen|exact Hle].
Defined.

Lemma Abs_elementwise_witness :
  wf (heap_of ["-5"; "2"]) (list_at 0 2) = true /\
  exists r h',
    Abs parse_int no_spare pretty (list_at 0 2) (heap_of ["-5"; "2"]) = Ok r h' /\
    contents h' r = ["5"; "2"] /\
    contents h' (list_at 0 2) = ["-5"; "2"].
Proof.
  split; [reflexivity|].
  destruct (Abs_elementwise parse_int no_spare pretty (heap_of ["-5"; "2"])
              (list_at 0 2) eq_refl) as (r & h' & Hrun & Hc & _ & _ & Hd & _).
  exists r, h'. split; [exact Hrun|]. split; [exact Hc|exact Hd].
Defined.

Lemma Add_associative_witness :
  backing (heap_of3 ["a"] ["b"] ["c"]) (list_at 0 1) = Some (Slice 0 0 1 1) /\
  backing (heap_of3 ["a"] ["b"] ["c"]) (list_at 1 1) = Some (Slice 1 0 1 1) /\
  backing (heap_of3 ["a"] ["b"] ["c"]) (list_at 2 1) = Some (Slice 2 0 1 1) /\
  wf (heap_of3 ["a"] ["b"] ["c"]) (list_at 0 1) = true /\
  wf (heap_of3 ["a"] ["b"] ["c"]) (list_at 1 1) = true /\
  wf (heap_of3 ["a"] ["b"] ["c"]) (list_at 2 1) = true /\
  s_arr (Slice 0 0 1 1) ≠ s_arr (Slice 1 0 1 1) /\
  s_arr (Slice 0 0 1 1) ≠ s_arr (Slice 2 0 1 1) /\
  exists ab h1 abc h2,
    Add double_spare (list_at 0 1) (list_at 1 1) (heap_of3 ["a"] ["b"] ["c"])
      = Ok ab h1 /\
    Add double_spare ab (list_at 2 1) h1 = Ok abc h2 /\
    contents h2 abc = ["a"; "b"; "c"].
Proof.
  assert (H01 : s_arr (Slice 0 0 1 1) ≠ s_arr (Slice 1 0 1 1)) by discriminate.
  assert (H02 : s_arr (Slice 0 0 1 1) ≠ s_arr (Slice 2 0 1 1)) by discriminate.
  split; [reflexivity|]. split; [reflexivity|]. split; [reflexivity|].
  split; [reflexivity|]. split; [reflexivity|]. split; [reflexivity|].
  split; [exact H01|]. split; [exact H02|].
  destruct (Add_associative double_spare (heap_of3 ["a"] ["b"] ["c"])
              (list_at 0 1) (list_at 1 1) (list_at 2 1)
              (Slice 0 0 1 1) (Slice 1 0 1 1) (Slice 2 0 1 1)
              eq_refl eq_refl eq_refl eq_refl eq_refl eq_refl H01 H02)
    as (ab & h1 & abc & h2 & _ & _ & _ & _ & Hr1 & Hr2 & _ & _ & Hc & _).
  exists ab, h1, abc, h2. split; [exact Hr1|]. split; [exact Hr2|exact Hc].
Defined.

Lemma Add_result_shares_receiver_array_witness :
  wf (heap_with_room ["a"] 2 ["x"; "y"]) (list_at 0 1) = true /\
  wf (heap_with_room ["a"] 2 ["x"; "y"]) (list_at 1 2) = true /\
  backing (heap_with_room ["a"] 2 ["x"; "y"]) (list_at 0 1) = Some (Slice 0 0 1 3) /\
  contents (heap_with_room ["a"] 2 ["x"; "y"]) (list_at 1 2) = ["x"; "y"] /\
  s_len (Slice 0 0 1 3) + S (length ["y"]) <= s_cap (Slice 0 0 1 3) /\
  exists r h1 h2,
    Add no_spare (list_at 0 1) (list_at 1 2) (heap_with_room ["a"] 2 ["x"; "y"])
      = Ok r h1 /\
    contents h1 r = ["a"; "x"; "y"] /\
    Append string id no_spare (list_at 0 1) "b" h1 = Ok tt h2 /\
    contents h2 r = ["a"; "b"; "y"].
Proof.
  assert (Hroom : s_len (Slice 0 0 1 3) + S (length ["y"]) <= s_cap (Slice 0 0 1 3))
    by (vm_compute; lia).
  split; [reflexivity|]. split; [reflexivity|]. split; [reflexivity|].
  split; [reflexivity|]. split; [exact Hroom|].
  destruct (Add_result_shares_receiver_array string id no_spare
              (heap_with_room ["a"] 2 ["x"; "y"]) (list_at 0 1) (list_at 1 2)
              (Slice 0 0 1 3) "x" ["y"] "b" eq_refl eq_refl eq_refl eq_refl Hroom)
    as (r & h1 & h2 & Hrun & Hc1 & Happ & Hc2).
  exists r, h1, h2. split; [exact Hrun|]. split; [exact Hc1|].
  split; [exact Happ|exact Hc2].
Defined.

Lemma Remove_right_without_repeats_witness :
  wf (heap_of ["a"; "b"; "c"]) (list_at 0 3) = true /\
  Remove string id no_spare (list_at 0 3) "z" (heap_of ["a"; "b"; "c"])
    = Ok tt (heap_of ["a"; "b"; "c"]) /\
  exists h', Remove string id no_spare (list_at 0 3) "b" (heap_of ["a"; "b"; "c"])
               = Ok tt h' /\
             contents h' (list_at 0 3) = ["a"; "c"].
Proof.
  split; [reflexivity|].
  destruct (Remove_right_without_repeats string id no_spare
              (heap_of ["a"; "b"; "c"]) (list_at 0 3) "z" eq_refl) as [Habs _].
  destruct (Remove_right_without_repeats string id no_spare
              (heap_of ["a"; "b"; "c"]) (list_at 0 3) "b" eq_refl) as [_ Hone].
  split.
  - apply Habs. vm_compute. intros H.
    repeat (apply elem_of_cons in H as [H|H]; [discriminate H|]).
    by apply elem_of_nil in H.
  - apply (Hone ["a"] ["c"]); [reflexivity| |].
    + intros H. apply elem_of_cons in H as [H|H]; [discriminate H|].
      by apply elem_of_nil in H.
    + intros H. apply elem_of_cons in H as [H|H]; [discriminate H|].
      by apply elem_of_nil in H.
Defined.

Lemma Extend_appends_in_order_witness :
  wf (heap_of ["a"]) (list_at 0 1) = true /\
  exists h', Extend (list string) id double_spare (list_at 0 1) ["b"; "c"]
               (heap_of ["a"]) = Ok tt h' /\
             contents h' (list_at 0 1) = ["a"; "b"; "c"].
Proof.
  split; [reflexivity|].
  destruct (Extend_appends_in_order (list string) id double_spare
              (heap_of ["a"]) (list_at 0 1) ["b"; "c"] eq_refl)
    as ((h' & Hrun & Hc) & _).
  exists h'. split; [exact Hrun|exact Hc].
Defined.
